(** * Docker Hub client of version-checker: model and properties

    A shallow embedding of [pkg/client/docker/docker.go].  Go strings are
    byte strings and are modelled by [string]; an [error] is modelled by the
    text of its message; [http.Header] is a finite map from header names to
    value lists.  The Go standard library functions that the client calls
    ([url.Parse], [time.Parse], [json.Unmarshal]) and what [http.Client.Do]
    returns are collected in the class [Runtime], so every statement holds
    for all of their behaviours.  The requests that are recorded are the
    ones the client hands to [Do]; what [net/http] does behind [Do]
    (redirects, connection reuse) is part of its answer.  The
    [context.Context] argument only reaches [Do], where cancellation is one
    more failure; it is not represented. *)

From Stdlib Require Import ZArith Lia Bool Ascii String.
From stdpp Require Import base option list strings gmap.

(** ** The parts of Go's [strings] package used by the client *)

Module gostrings.

(** [strings.HasPrefix]:
    [len(s) >= len(prefix) && s[:len(prefix)] == prefix]. *)
Definition HasPrefix (s prefix : string) : bool :=
  (String.length prefix <=? String.length s)%nat
  && String.eqb (substring 0 (String.length prefix) s) prefix.

(** [strings.TrimPrefix]: [s[len(prefix):]] when [HasPrefix], else [s]. *)
Definition TrimPrefix (s prefix : string) : string :=
  if HasPrefix s prefix
  then substring (String.length prefix)
                 (String.length s - String.length prefix) s
  else s.

(** [strings.Split s sep] for a non-empty separator: the pieces of [s]
    between the non-overlapping occurrences of [sep], scanning from the
    left.  [skip] counts the bytes of a matched separator that are still
    to be passed over. *)
Fixpoint splitFrom (sep : string) (skip : nat) (s : string) : list string :=
  match s with
  | EmptyString => [EmptyString]
  | String c s' =>
      match skip with
      | S k => splitFrom sep k s'
      | O =>
          if HasPrefix s sep
          then EmptyString :: splitFrom sep (String.length sep - 1) s'
          else match splitFrom sep 0 s' with
               | piece :: pieces => String c piece :: pieces
               | [] => [String c EmptyString]
               end
      end
  end.

Definition Split (s sep : string) : list string := splitFrom sep 0 s.

(** The byte [c] occurs in [s] ([strings.IndexByte(s, c) >= 0]). *)
Fixpoint hasByte (c : ascii) (s : string) : bool :=
  match s with
  | EmptyString => false
  | String c' s' => Ascii.eqb c' c || hasByte c s'
  end.

End gostrings.

(** ** Errors and fallible results *)

(** A Go [error], identified with its message. *)
Definition error : Type := string.

(** The pair [(value, error)] returned by a fallible Go function: either a
    value and a nil error, or a non-nil error (the value is then the zero
    value and carries nothing). *)
Inductive fallible (A : Type) : Type :=
| Ok (a : A)
| Err (e : error).
Arguments Ok {A} a.
Arguments Err {A} e.

Definition is_Err {A : Type} (r : fallible A) : Prop :=
  match r with Err _ => True | Ok _ => False end.

(** ** [net/url] and [net/http] *)

Module url.

Record URL : Type := mkURL {
  Scheme : string;
  Host : string;
  Path : string;
  RawQuery : string
}.

(** The assignment [u.Scheme = scheme]. *)
Definition withScheme (scheme : string) (u : URL) : URL :=
  {| Scheme := scheme; Host := Host u; Path := Path u;
     RawQuery := RawQuery u |}.

End url.

Module http.

Definition MethodGet : string := "GET".
Definition MethodPost : string := "POST".
Definition StatusOK : Z := 200.

(** [http.Header] is [map[string][]string]. *)
Abbreviation Header := (gmap string (list string)).

(** [Header.Add] appends to the values of the key, [Header.Set] replaces
    them.  Both keys used by the client are already in canonical form. *)
Definition Add (key value : string) (h : Header) : Header :=
  <[key := default [] (h !! key) ++ [value]]> h.
Definition Set_ (key value : string) (h : Header) : Header :=
  <[key := [value]]> h.

Record Request : Type := mkRequest {
  Method : string;
  URL : url.URL;
  Hdr : Header;
  ReqBody : option string
}.

Definition withURL (u : url.URL) (req : Request) : Request :=
  {| Method := Method req; URL := u; Hdr := Hdr req;
     ReqBody := ReqBody req |}.
Definition withHeader (h : Header) (req : Request) : Request :=
  {| Method := Method req; URL := URL req; Hdr := h;
     ReqBody := ReqBody req |}.

(** A response: its status code and what [ioutil.ReadAll(resp.Body)]
    gives. *)
Record Response : Type := mkResponse {
  StatusCode : Z;
  Body : fallible string
}.

(** [http.Client]; the client only sets its timeout (nanoseconds). *)
Record Client : Type := mkClient {
  Timeout : Z
}.

End http.

(** ** Wire types of the registry *)

Record Options : Type := mkOptions {
  LoginURL : string;
  Username : string;
  Password : string;
  JWT : string
}.

(** [Client] embeds [*http.Client] and [Options]. *)
Record Client : Type := mkClient {
  httpClient : http.Client;
  options : Options
}.

Record AuthResponse : Type := mkAuthResponse {
  Token : string
}.

Record Image : Type := mkImage {
  Digest : string;
  OS : string;
  Architecture : string
}.

Record Result : Type := mkResult {
  Name : string;
  Timestamp : string;
  Images : list Image
}.

Record TagResponse : Type := mkTagResponse {
  Next : string;
  Results : list Result
}.

(** ** The environment of the client *)

Class Runtime : Type := {
  (** [time.Time] *)
  Time : Type;
  (** [time.Parse(time.RFC3339Nano, value)] *)
  time_Parse : string -> fallible Time;
  (** [url.Parse], the only way [http.NewRequest] fails here *)
  url_Parse : string -> fallible url.URL;
  (** [json.Unmarshal] into a [TagResponse] and into an [AuthResponse] *)
  json_Unmarshal_TagResponse : string -> fallible TagResponse;
  json_Unmarshal_AuthResponse : string -> fallible AuthResponse;
  (** What [http.Client.Do] returns for a request, given the requests
      that were handed to it before. *)
  RoundTrip : list http.Request -> http.Request -> fallible http.Response
}.

(** [api.ImageTag] of [pkg/api]. *)
Module api.

Record ImageTag `{Runtime} : Type := mkImageTag {
  Tag : string;
  SHA : string;
  Timestamp : Time;
  OS : string;
  Architecture : string
}.

End api.

(** ** Computations that send requests

    The state is the list of requests handed to [http.Client.Do] so far. *)

Definition IO (A : Type) : Type :=
  list http.Request -> fallible A * list http.Request.

Definition ret {A : Type} (a : A) : IO A := fun log => (Ok a, log).

Definition fail {A : Type} (e : error) : IO A := fun log => (Err e, log).

Definition bind {A B : Type} (m : IO A) (k : A -> IO B) : IO B :=
  fun log =>
    match m log with
    | (Ok a, log') => k a log'
    | (Err e, log') => (Err e, log')
    end.

Definition lift {A : Type} (r : fallible A) : IO A := fun log => (r, log).

(** [fmt.Errorf(prefix + "%s", err)] on the failure of [m]. *)
Definition wrap {A : Type} (prefix : string) (m : IO A) : IO A :=
  fun log =>
    match m log with
    | (Ok a, log') => (Ok a, log')
    | (Err e, log') => (Err (prefix +:+ e), log')
    end.

Notation "'let*' x ':=' m 'in' k" := (bind m (fun x => k))
  (at level 10, x name, m at level 200, k at level 200).

(** [http.NewRequest(method, url, body)] for a valid method. *)
Definition NewRequest `{Runtime} (method url : string) (body : option string)
  : fallible http.Request :=
  match url_Parse url with
  | Err e => Err e
  | Ok u => Ok {| http.Method := method; http.URL := u; http.Hdr := ∅;
                  http.ReqBody := body |}
  end.

(** [client.Do(req)]: the request is recorded and answered. *)
Definition Do `{Runtime} (client : http.Client) (req : http.Request)
  : IO http.Response :=
  fun log => (RoundTrip log req, log ++ [req]).

(** ** Constants *)

Definition repoURL (path : string) : string :=
  "https://registry.hub.docker.com/v2/repositories/" +:+ path +:+ "/tags".
Definition imagePrefix : string := "docker.io/".
Definition imagePrefixHub : string := "registry.hub.docker.com/".

(** The double quote byte. *)
Definition dq : string := String "034"%char EmptyString.

(** ** [basicAuthSetup] *)

(** The text read by [upReader]:
    [fmt.Sprintf(`{"username": "%s", "password": "%s"}`, Username, Password)]. *)
Definition loginBody (opts : Options) : string :=
  "{" +:+ dq +:+ "username" +:+ dq +:+ ": " +:+ dq +:+ Username opts +:+ dq
  +:+ ", " +:+ dq +:+ "password" +:+ dq +:+ ": " +:+ dq +:+ Password opts
  +:+ dq +:+ "}".

Definition basicAuthSetup `{Runtime} (client : http.Client) (opts : Options)
  : IO string :=
  let upReader := loginBody opts in
  let* req :=
    lift (NewRequest http.MethodPost (LoginURL opts) (Some upReader)) in
  let req :=
    http.withHeader
      (http.Set_ "Content-Type" "application/json" (http.Hdr req)) req in
  let* resp := Do client req in
  let* body := lift (http.Body resp) in
  if negb (http.StatusCode resp =? http.StatusOK)%Z
  then fail body
  else
    let* response := lift (json_Unmarshal_AuthResponse body) in
    ret (Token response).

(** ** [New] *)

Definition New `{Runtime} (opts : Options) : IO Client :=
  let client := {| http.Timeout := 1000000000 * 5 |} in
  if (0 <? String.length (Username opts))%nat
     || (0 <? String.length (Password opts))%nat
  then
    if (0 <? String.length (JWT opts))%nat
    then fail "cannot specify JWT as well as username/password"
    else
      let* token :=
        wrap "failed to setup auth: " (basicAuthSetup client opts) in
      ret {| httpClient := client;
             options := {| LoginURL := LoginURL opts;
                           Username := Username opts;
                           Password := Password opts;
                           JWT := token |} |}
  else ret {| httpClient := client; options := opts |}.

(** ** [IsClient] *)

Definition IsClient (imageURL : string) : bool :=
  gostrings.HasPrefix imageURL imagePrefix
  || gostrings.HasPrefix imageURL imagePrefixHub.

(** ** [doRequest] *)

Definition doRequest `{Runtime} (c : Client) (url : string) : IO TagResponse :=
  let* req := lift (NewRequest http.MethodGet url None) in
  let req := http.withURL (url.withScheme "https" (http.URL req)) req in
  let req :=
    if (0 <? String.length (JWT (options c)))%nat
    then http.withHeader
           (http.Add "Authorization" ("JWT " +:+ JWT (options c))
                     (http.Hdr req)) req
    else req in
  let* resp := wrap "failed to get docker image: " (Do (httpClient c) req) in
  let* body := lift (http.Body resp) in
  match json_Unmarshal_TagResponse body with
  | Err _ => fail ("unexpected image tags response: " +:+ body)
  | Ok response => ret response
  end.

(** ** [Tags] *)

(** Lines 85-97: the repository path of an image reference. *)
Definition repoPath (imageURL : string) : string :=
  let imageURL :=
    if gostrings.HasPrefix imageURL imagePrefix
    then gostrings.TrimPrefix imageURL imagePrefix else imageURL in
  let imageURL :=
    if gostrings.HasPrefix imageURL imagePrefixHub
    then gostrings.TrimPrefix imageURL imagePrefixHub else imageURL in
  if (length (gostrings.Split imageURL "/") =? 1)%nat
  then "library/" +:+ imageURL
  else imageURL.

(** Lines 117-130: the loop over the images of one result. *)
Fixpoint imagesLoop `{Runtime} (result : Result) (timestamp : Time)
    (images : list Image) (tags : list api.ImageTag) : list api.ImageTag :=
  match images with
  | [] => tags
  | image :: images' =>
      if (String.length (Digest image) =? 0)%nat
      then imagesLoop result timestamp images' tags
      else imagesLoop result timestamp images'
             (tags ++ [ {| api.Tag := Name result;
                           api.SHA := Digest image;
                           api.Timestamp := timestamp;
                           api.OS := OS image;
                           api.Architecture := Architecture image |} ])
  end.

(** Lines 106-131: the loop over the results of one page. *)
Fixpoint resultsLoop `{Runtime} (results : list Result)
    (tags : list api.ImageTag) : fallible (list api.ImageTag) :=
  match results with
  | [] => Ok tags
  | result :: results' =>
      if (length (Images result) =? 0)%nat
      then resultsLoop results' tags
      else
        match time_Parse (Timestamp result) with
        | Err err => Err ("failed to parse image timestamp: " +:+ err)
        | Ok timestamp =>
            resultsLoop results'
              (imagesLoop result timestamp (Images result) tags)
        end
  end.

(** Lines 100-134: the loop over the pages.  Go's loop has no bound; [fuel]
    bounds the number of pages fetched, and [None] says that the bound was
    reached with a page still to fetch. *)
Fixpoint pagesLoop `{Runtime} (fuel : nat) (c : Client) (url : string)
    (tags : list api.ImageTag) (log : list http.Request)
  : option (fallible (list api.ImageTag)) * list http.Request :=
  if String.eqb url EmptyString then (Some (Ok tags), log)
  else
    match fuel with
    | O => (None, log)
    | S fuel' =>
        match doRequest c url log with
        | (Err err, log') => (Some (Err err), log')
        | (Ok response, log') =>
            match resultsLoop (Results response) tags with
            | Err err => (Some (Err err), log')
            | Ok tags' => pagesLoop fuel' c (Next response) tags' log'
            end
        end
    end.

Definition Tags `{Runtime} (fuel : nat) (c : Client) (imageURL : string)
    (log : list http.Request)
  : option (fallible (list api.ImageTag)) * list http.Request :=
  let url := repoURL (repoPath imageURL) in
  pagesLoop fuel c url [] log.

(** ** Vocabulary of the properties *)

(** The [ImageTag] emitted for an image of a result. *)
Definition imageTag `{Runtime} (result : Result) (timestamp : Time)
    (image : Image) : api.ImageTag :=
  {| api.Tag := Name result;
     api.SHA := Digest image;
     api.Timestamp := timestamp;
     api.OS := OS image;
     api.Architecture := Architecture image |}.

(** One [ImageTag] per pair of a result and one of its images with a
    non-empty digest, in the order of the page. *)
Definition resultEmissions `{Runtime} (result : Result) : list api.ImageTag :=
  match time_Parse (Timestamp result) with
  | Ok timestamp =>
      map (imageTag result timestamp)
          (filter (fun image => Digest image <> EmptyString) (Images result))
  | Err _ => []
  end.

Definition pageEmissions `{Runtime} (page : TagResponse) : list api.ImageTag :=
  flat_map resultEmissions (Results page).

(** The timestamp of every result that carries images parses. *)
Definition timestampsParse `{Runtime} (results : list Result) : Prop :=
  Forall (fun result =>
            Images result <> [] ->
            exists timestamp, time_Parse (Timestamp result) = Ok timestamp)
         results.

(** Some result that carries images has a timestamp that does not parse. *)
Definition badTimestamp `{Runtime} (results : list Result) : Prop :=
  Exists (fun result =>
            Images result <> [] /\ is_Err (time_Parse (Timestamp result)))
         results.

(** From the history [log] on, the registry delivers [pages] one after the
    other: a GET of [url] is answered (with whatever status) by a body that
    decodes as the first page, a GET of that page's [next] by the second
    one, and so on; the [next] of the last page is empty. *)
Fixpoint serves `{Runtime} (url : string) (pages : list TagResponse)
    (log : list http.Request) : Prop :=
  match pages with
  | [] => url = EmptyString
  | page :: pages' =>
      url <> EmptyString /\
      exists u body,
        url_Parse url = Ok u /\
        json_Unmarshal_TagResponse body = Ok page /\
        forall req,
          http.Method req = http.MethodGet ->
          http.URL req = url.withScheme "https" u ->
          (exists status,
             RoundTrip log req
             = Ok {| http.StatusCode := status; http.Body := Ok body |}) /\
          serves (Next page) pages' (log ++ [req])
  end.

(** The normalisation as the specification words it: the one recognised
    prefix that is present is removed, and a path without a slash gets the
    [library/] namespace. *)
Definition claimedRepoPath (imageURL : string) : string :=
  let path :=
    if gostrings.HasPrefix imageURL "docker.io/"
    then gostrings.TrimPrefix imageURL "docker.io/"
    else if gostrings.HasPrefix imageURL "registry.hub.docker.com/"
         then gostrings.TrimPrefix imageURL "registry.hub.docker.com/"
         else imageURL in
  if gostrings.hasByte "/" path then path else "library/" +:+ path.

(** The header of a tag-listing request of client [c]. *)
Definition tagHeader (c : Client) : http.Header :=
  if decide (JWT (options c) = EmptyString) then ∅
  else {[ "Authorization" := ["JWT " +:+ JWT (options c)] ]}.

(** The request that [doRequest] hands to the transport for a URL that
    parses as [u], and the one of [basicAuthSetup]. *)
Definition tagRequest (c : Client) (u : url.URL) : http.Request :=
  {| http.Method := http.MethodGet;
     http.URL := url.withScheme "https" u;
     http.Hdr := tagHeader c;
     http.ReqBody := None |}.

Definition loginRequest (opts : Options) (u : url.URL) : http.Request :=
  {| http.Method := http.MethodPost;
     http.URL := u;
     http.Hdr := {[ "Content-Type" := ["application/json"] ]};
     http.ReqBody := Some (loginBody opts) |}.

(** The URLs of the pages of a chain that starts at [url]. *)
Fixpoint pageURLs (url : string) (pages : list TagResponse) : list string :=
  match pages with
  | [] => []
  | page :: pages' => url :: pageURLs (Next page) pages'
  end.

(** [req] is the tag-listing request of client [c] for [url]. *)
Definition requestFor `{Runtime} (c : Client) (url : string)
    (req : http.Request) : Prop :=
  exists u, url_Parse url = Ok u /\ req = tagRequest c u.

(** ** A registry double

    A small fixed registry, against which the statements are run. *)

Module Fixture.

Definition quoted (s : string) : string := dq +:+ s +:+ dq.

Definition field (name value : string) : string :=
  quoted name +:+ ":" +:+ value.

Fixpoint joined (items : list string) : string :=
  match items with
  | [] => EmptyString
  | [item] => item
  | item :: items' => item +:+ "," +:+ joined items'
  end.

Definition renderImage (image : Image) : string :=
  "{" +:+ joined [field "digest" (quoted (Digest image));
                  field "os" (quoted (OS image));
                  field "Architecture" (quoted (Architecture image))] +:+ "}".

Definition renderResult (result : Result) : string :=
  "{" +:+ joined [field "name" (quoted (Name result));
                  field "last_updated" (quoted (Timestamp result));
                  field "images"
                    ("[" +:+ joined (map renderImage (Images result)) +:+ "]")]
  +:+ "}".

Definition renderPage (page : TagResponse) : string :=
  "{" +:+ joined [field "next" (quoted (Next page));
                  field "results"
                    ("[" +:+ joined (map renderResult (Results page)) +:+ "]")]
  +:+ "}".

Definition nginxURL : string :=
  "https://registry.hub.docker.com/v2/repositories/library/nginx/tags".
Definition nginxURL2 : string :=
  "https://registry.hub.docker.com/v2/repositories/library/nginx/tags?page=2".
Definition brokenURL : string :=
  "https://registry.hub.docker.com/v2/repositories/myorg/broken/tags".
Definition loginURL : string := "https://hub.docker.com/v2/users/login/".

Definition nginxPage1 : TagResponse :=
  {| Next := nginxURL2;
     Results :=
       [ {| Name := "v1"; Timestamp := "2023-01-01T00:00:00Z";
            Images := [ {| Digest := "sha256:aaa"; OS := "linux";
                           Architecture := "amd64" |};
                        {| Digest := EmptyString; OS := "linux";
                           Architecture := "arm64" |};
                        {| Digest := "sha256:bbb"; OS := "linux";
                           Architecture := "arm" |} ] |};
         {| Name := "pending"; Timestamp := "not a time"; Images := [] |} ] |}.

Definition nginxPage2 : TagResponse :=
  {| Next := EmptyString;
     Results :=
       [ {| Name := "v2"; Timestamp := "2023-02-01T00:00:00.5Z";
            Images := [ {| Digest := "sha256:ccc"; OS := "linux";
                           Architecture := "amd64" |} ] |} ] |}.

Definition brokenPage : TagResponse :=
  {| Next := EmptyString;
     Results :=
       [ {| Name := "v1"; Timestamp := "2023-01-01T00:00:00Z";
            Images := [ {| Digest := "sha256:ddd"; OS := "linux";
                           Architecture := "amd64" |} ] |};
         {| Name := "v2"; Timestamp := "yesterday";
            Images := [ {| Digest := "sha256:eee"; OS := "linux";
                           Architecture := "amd64" |} ] |} ] |}.

Definition tokenBody : string := "{" +:+ field "token" (quoted "abc") +:+ "}".

(** Instants are nanoseconds since the Unix epoch. *)
Definition parseTime (value : string) : fallible Z :=
  if String.eqb value "2023-01-01T00:00:00Z" then Ok 1672531200000000000%Z
  else if String.eqb value "2023-02-01T00:00:00.5Z"
       then Ok 1675209600500000000%Z
       else Err ("parsing time " +:+ quoted value).

(** A URL is split at [://]; the host and the query stay in the path. *)
Definition parseURL (raw : string) : fallible url.URL :=
  if gostrings.HasPrefix raw "https://"
  then Ok {| url.Scheme := "https"; url.Host := EmptyString;
             url.Path := gostrings.TrimPrefix raw "https://";
             url.RawQuery := EmptyString |}
  else if gostrings.HasPrefix raw "http://"
       then Ok {| url.Scheme := "http"; url.Host := EmptyString;
                  url.Path := gostrings.TrimPrefix raw "http://";
                  url.RawQuery := EmptyString |}
       else Err ("parse " +:+ quoted raw +:+ ": unsupported URL").

Definition decodePage (body : string) : fallible TagResponse :=
  if String.eqb body (renderPage nginxPage1) then Ok nginxPage1
  else if String.eqb body (renderPage nginxPage2) then Ok nginxPage2
  else if String.eqb body (renderPage brokenPage) then Ok brokenPage
  else Err "invalid character looking for beginning of value".

Definition decodeAuth (body : string) : fallible AuthResponse :=
  if String.eqb body tokenBody then Ok {| Token := "abc" |}
  else Err "invalid character looking for beginning of value".

(** The registry answers by path alone; the second nginx page and the
    login of user [mallory] come with an error status. *)
Definition roundTrip (log : list http.Request) (req : http.Request)
  : fallible http.Response :=
  let path := url.Path (http.URL req) in
  if String.eqb path (gostrings.TrimPrefix nginxURL "https://")
  then Ok {| http.StatusCode := 200;
             http.Body := Ok (renderPage nginxPage1) |}
  else if String.eqb path (gostrings.TrimPrefix nginxURL2 "https://")
  then Ok {| http.StatusCode := 404;
             http.Body := Ok (renderPage nginxPage2) |}
  else if String.eqb path (gostrings.TrimPrefix brokenURL "https://")
  then Ok {| http.StatusCode := 200;
             http.Body := Ok (renderPage brokenPage) |}
  else if String.eqb path (gostrings.TrimPrefix loginURL "https://")
  then match http.ReqBody req with
       | Some body =>
           if String.eqb body
                (loginBody {| LoginURL := loginURL; Username := "mallory";
                              Password := "guess"; JWT := EmptyString |})
           then Ok {| http.StatusCode := 401;
                      http.Body := Ok "incorrect authentication credentials" |}
           else Ok {| http.StatusCode := 200; http.Body := Ok tokenBody |}
       | None => Err "EOF"
       end
  else Err "dial tcp: connection refused".

Definition runtime : Runtime :=
  {| Time := Z;
     time_Parse := parseTime;
     url_Parse := parseURL;
     json_Unmarshal_TagResponse := decodePage;
     json_Unmarshal_AuthResponse := decodeAuth;
     RoundTrip := roundTrip |}.

Definition anonymous : Client :=
  {| httpClient := {| http.Timeout := 5000000000 |};
     options := {| LoginURL := loginURL; Username := EmptyString;
                   Password := EmptyString; JWT := EmptyString |} |}.

Definition authenticated : Client :=
  {| httpClient := {| http.Timeout := 5000000000 |};
     options := {| LoginURL := loginURL; Username := EmptyString;
                   Password := EmptyString; JWT := "abc" |} |}.

End Fixture.

(** ** Chains that end in any way

    [leads url pages log final]: from the history [log] on, the registry
    delivers [pages] one after the other, starting at [url]; [final] holds
    of the [next] of the last page and of the history at that point.
    [serves] is the case in which that [next] is empty. *)
Fixpoint leads `{Runtime} (url : string) (pages : list TagResponse)
    (log : list http.Request)
    (final : string -> list http.Request -> Prop) : Prop :=
  match pages with
  | [] => final url log
  | page :: pages' =>
      url <> EmptyString /\
      exists u body,
        url_Parse url = Ok u /\
        json_Unmarshal_TagResponse body = Ok page /\
        forall req,
          http.Method req = http.MethodGet ->
          http.URL req = url.withScheme "https" u ->
          (exists status,
             RoundTrip log req
             = Ok {| http.StatusCode := status; http.Body := Ok body |}) /\
          leads (Next page) pages' (log ++ [req]) final
  end.

(** The transport refuses the GET of [url] with the error [err]. *)
Definition refused `{Runtime} (err : error) (url : string)
    (log : list http.Request) : Prop :=
  url <> EmptyString /\
  exists u,
    url_Parse url = Ok u /\
    forall req,
      http.Method req = http.MethodGet ->
      http.URL req = url.withScheme "https" u ->
      RoundTrip log req = Err err.

(** The GET of [url] is answered by the text [body], which does not decode
    as a page. *)
Definition garbled `{Runtime} (body : string) (url : string)
    (log : list http.Request) : Prop :=
  url <> EmptyString /\
  is_Err (json_Unmarshal_TagResponse body) /\
  exists u,
    url_Parse url = Ok u /\
    forall req,
      http.Method req = http.MethodGet ->
      http.URL req = url.withScheme "https" u ->
      exists status,
        RoundTrip log req
        = Ok {| http.StatusCode := status; http.Body := Ok body |}.

(** The link [url] is not empty and does not parse. *)
Definition dangling `{Runtime} (err : error) (url : string)
    (log : list http.Request) : Prop :=
  url <> EmptyString /\ url_Parse url = Err err.

(** The configuration carries credentials. *)
Definition hasCredentials (opts : Options) : Prop :=
  Username opts <> EmptyString \/ Password opts <> EmptyString.

(** ** A registry double that fails

    Four repositories of one organisation: the second page of [app] is
    refused by the transport (and linked with the scheme [http]), the
    second page of [web] is an HTML error page, the first page of [db]
    links to a text that is no URL, and the only page of [loop] links to
    itself. *)

Module Outage.

Definition tagsURL (repo : string) : string :=
  "https://registry.hub.docker.com/v2/repositories/acme/" +:+ repo +:+ "/tags".

Definition appURL2 : string :=
  "http://registry.hub.docker.com/v2/repositories/acme/app/tags?page=2".
Definition webURL2 : string :=
  "https://registry.hub.docker.com/v2/repositories/acme/web/tags?page=2".

Definition release (name digest : string) : Result :=
  {| Name := name; Timestamp := "2023-01-01T00:00:00Z";
     Images := [ {| Digest := digest; OS := "linux";
                    Architecture := "amd64" |} ] |}.

Definition appPage : TagResponse :=
  {| Next := appURL2; Results := [release "v1" "sha256:a11"] |}.
Definition webPage : TagResponse :=
  {| Next := webURL2; Results := [release "v1" "sha256:b22"] |}.
Definition dbPage : TagResponse :=
  {| Next := "::next"; Results := [release "v1" "sha256:c33"] |}.
Definition loopPage : TagResponse :=
  {| Next := tagsURL "loop"; Results := [release "v1" "sha256:d44"] |}.

Definition badGateway : string := "<html>502 Bad Gateway</html>".

Definition decodePage (body : string) : fallible TagResponse :=
  if String.eqb body (Fixture.renderPage appPage) then Ok appPage
  else if String.eqb body (Fixture.renderPage webPage) then Ok webPage
  else if String.eqb body (Fixture.renderPage dbPage) then Ok dbPage
  else if String.eqb body (Fixture.renderPage loopPage) then Ok loopPage
  else Err "invalid character '<' looking for beginning of value".

Definition pathOf (raw : string) : string :=
  match Fixture.parseURL raw with
  | Ok u => url.Path u
  | Err _ => EmptyString
  end.

Definition roundTrip (log : list http.Request) (req : http.Request)
  : fallible http.Response :=
  let path := url.Path (http.URL req) in
  let page (p : TagResponse) : fallible http.Response :=
    Ok {| http.StatusCode := 200;
          http.Body := Ok (Fixture.renderPage p) |} in
  if String.eqb path (pathOf (tagsURL "app")) then page appPage
  else if String.eqb path (pathOf (tagsURL "web")) then page webPage
  else if String.eqb path (pathOf (tagsURL "db")) then page dbPage
  else if String.eqb path (pathOf (tagsURL "loop")) then page loopPage
  else if String.eqb path (pathOf webURL2)
  then Ok {| http.StatusCode := 502; http.Body := Ok badGateway |}
  else Err "context deadline exceeded".

Definition runtime : Runtime :=
  {| Time := Z;
     time_Parse := Fixture.parseTime;
     url_Parse := Fixture.parseURL;
     json_Unmarshal_TagResponse := decodePage;
     json_Unmarshal_AuthResponse := Fixture.decodeAuth;
     RoundTrip := roundTrip |}.

End Outage.

(** * Properties *)

(** ** Strings *)

Section StringFacts.

Import gostrings.

Lemma substring_0_app (p rest : string) :
  substring 0 (String.length p) (p +:+ rest) = p.
Proof.
  induction p as [|c p IH]; simpl; [by destruct rest | by rewrite IH].
Qed.

Lemma substring_0_all (s : string) : substring 0 (String.length s) s = s.
Proof. induction s as [|c s IH]; simpl; [done | by rewrite IH]. Qed.

Lemma substring_skip_app (p rest : string) :
  substring (String.length p) (String.length rest) (p +:+ rest) = rest.
Proof. induction p as [|c p IH]; simpl; [apply substring_0_all | done]. Qed.

Lemma length_app (p rest : string) :
  String.length (p +:+ rest) = String.length p + String.length rest.
Proof. induction p as [|c p IH]; simpl; [done | by rewrite IH]. Qed.

Lemma substring_0_split (n : nat) (s : string) :
  n <= String.length s ->
  s = substring 0 n s +:+ substring n (String.length s - n) s.
Proof.
  revert s; induction n as [|n IH]; intros s Hn.
  - rewrite Nat.sub_0_r, substring_0_all. by destruct s.
  - destruct s as [|c s]; simpl in *; [lia|].
    change (String c s = String c (substring 0 n s
              +:+ substring n (String.length s - n) s)).
    rewrite <- (IH s) by lia. done.
Qed.

Lemma HasPrefix_app (p rest : string) : HasPrefix (p +:+ rest) p = true.
Proof.
  unfold HasPrefix. rewrite substring_0_app, String.eqb_refl, length_app.
  rewrite andb_true_r. apply Nat.leb_le. lia.
Qed.

Lemma HasPrefix_true (s p : string) :
  HasPrefix s p = true <-> exists rest, s = p +:+ rest.
Proof.
  split.
  - unfold HasPrefix. intros [Hlen Heq]%andb_true_iff.
    apply Nat.leb_le in Hlen. apply String.eqb_eq in Heq.
    exists (substring (String.length p) (String.length s - String.length p) s).
    rewrite <- Heq at 1. by apply substring_0_split.
  - intros [rest ->]. apply HasPrefix_app.
Qed.

Lemma HasPrefix_false (s p : string) :
  HasPrefix s p = false <-> forall rest, s <> p +:+ rest.
Proof.
  rewrite <- not_true_iff_false, HasPrefix_true. split.
  - intros Hno rest Heq. apply Hno. by exists rest.
  - intros Hno [rest Heq]. by apply (Hno rest).
Qed.

Lemma TrimPrefix_app (p rest : string) : TrimPrefix (p +:+ rest) p = rest.
Proof.
  unfold TrimPrefix. rewrite HasPrefix_app, length_app.
  replace (String.length p + String.length rest - String.length p)
    with (String.length rest) by lia.
  apply substring_skip_app.
Qed.

Lemma splitFrom_nonempty (sep : string) (skip : nat) (s : string) :
  splitFrom sep skip s <> [].
Proof.
  revert skip; induction s as [|c s IH]; intros skip; simpl; [done|].
  destruct skip; [|apply IH].
  destruct (HasPrefix _ _); [done|].
  by destruct (splitFrom sep 0 s).
Qed.

Lemma HasPrefix_byte (c d : ascii) (s : string) :
  HasPrefix (String c s) (String d EmptyString) = true <-> c = d.
Proof.
  rewrite HasPrefix_true. split.
  - intros [rest Heq]. simpl in Heq. by inversion Heq.
  - intros ->. by exists s.
Qed.

(** Splitting on a one-byte separator gives a single piece exactly when
    the byte does not occur. *)
Lemma Split_byte_single (d : ascii) (s : string) :
  (length (Split s (String d EmptyString)) =? 1) = negb (hasByte d s).
Proof.
  unfold Split. induction s as [|c s IH]; [done|].
  cbn [splitFrom hasByte].
  pose proof (splitFrom_nonempty (String d EmptyString) 0 s) as Hne.
  destruct (HasPrefix (String c s) (String d EmptyString)) eqn:Hp.
  - apply HasPrefix_byte in Hp as ->. rewrite Ascii.eqb_refl. cbn.
    by destruct (splitFrom _ 0 s).
  - assert (Ascii.eqb c d = false) as ->.
    { apply Ascii.eqb_neq. intros ->.
      by rewrite (proj2 (HasPrefix_byte d d s)) in Hp. }
    cbn [orb]. rewrite <- IH.
    by destruct (splitFrom _ 0 s).
Qed.

End StringFacts.

(** ** [IsClient] *)

(** C9: [IsClient] is a function of the reference alone, and it is true
    exactly for the references that begin with [docker.io/] or with
    [registry.hub.docker.com/]. *)
Theorem IsClient_recognized_prefixes (imageURL : string) :
  IsClient imageURL = true <->
  (exists rest, imageURL = "docker.io/" +:+ rest)
  \/ (exists rest, imageURL = "registry.hub.docker.com/" +:+ rest).
Proof.
  unfold IsClient, imagePrefix, imagePrefixHub.
  by rewrite orb_true_iff, !HasPrefix_true.
Qed.

Example IsClient_docker_io : IsClient "docker.io/library/nginx" = true.
Proof. reflexivity. Qed.

Example IsClient_hub : IsClient "registry.hub.docker.com/myorg/app" = true.
Proof. reflexivity. Qed.

Example IsClient_other : IsClient "quay.io/jetstack/version-checker" = false.
Proof. reflexivity. Qed.

Example IsClient_bare : IsClient "nginx" = false.
Proof. reflexivity. Qed.

(** ** Normalisation of the reference *)

Example repoPath_bare : repoPath "nginx" = "library/nginx".
Proof. reflexivity. Qed.

Example repoPath_org : repoPath "myorg/myimage" = "myorg/myimage".
Proof. reflexivity. Qed.

Example repoPath_docker_io : repoPath "docker.io/nginx" = "library/nginx".
Proof. reflexivity. Qed.

Example repoPath_hub :
  repoPath "registry.hub.docker.com/myorg/myimage" = "myorg/myimage".
Proof. reflexivity. Qed.

(** C8, as stated, fails: after [docker.io/] has been removed, a path that
    begins with [registry.hub.docker.com/] loses that prefix too, so the
    remaining multi-segment path is not used unchanged. *)
Lemma repoPath_strips_twice :
  repoPath "docker.io/registry.hub.docker.com/foo" = "library/foo"
  /\ claimedRepoPath "docker.io/registry.hub.docker.com/foo"
     = "registry.hub.docker.com/foo"
  /\ ~ (forall imageURL, repoPath imageURL = claimedRepoPath imageURL).
Proof.
  split; [reflexivity|]. split; [reflexivity|].
  intros Heq. by specialize (Heq "docker.io/registry.hub.docker.com/foo").
Qed.

(** C8, amended: [docker.io/] is removed when the reference begins with it,
    then [registry.hub.docker.com/] is removed when what is left begins
    with it; a remaining path without a slash gets [library/] in front, any
    other remaining path is used as it is. *)
Theorem repoPath_normalizes (imageURL : string) :
  exists path,
    repoPath imageURL
    = (if gostrings.hasByte "/" path then path else "library/" +:+ path)
    /\ (imageURL = "docker.io/" +:+ "registry.hub.docker.com/" +:+ path
        \/ (imageURL = "docker.io/" +:+ path
            /\ gostrings.HasPrefix path "registry.hub.docker.com/" = false)
        \/ imageURL = "registry.hub.docker.com/" +:+ path
        \/ (imageURL = path /\ IsClient imageURL = false)).
Proof.
  unfold repoPath, IsClient, imagePrefix, imagePrefixHub.
  assert (forall path,
    (if (length (gostrings.Split path "/") =? 1)
     then "library/" +:+ path else path)
    = (if gostrings.hasByte "/" path then path else "library/" +:+ path))
    as Hslash.
  { intros path. rewrite Split_byte_single. by destruct (gostrings.hasByte _ _). }
  destruct (gostrings.HasPrefix imageURL "docker.io/") eqn:Hio.
  - apply HasPrefix_true in Hio as [rest ->]. rewrite TrimPrefix_app.
    destruct (gostrings.HasPrefix rest "registry.hub.docker.com/") eqn:Hhub.
    + apply HasPrefix_true in Hhub as [path ->]. rewrite TrimPrefix_app.
      exists path. split; [apply Hslash | by left].
    + exists rest. split; [apply Hslash | right; by left].
  - destruct (gostrings.HasPrefix imageURL "registry.hub.docker.com/") eqn:Hhub.
    + apply HasPrefix_true in Hhub as [path ->]. rewrite TrimPrefix_app.
      exists path. split; [apply Hslash | right; right; by left].
    + exists imageURL. split; [apply Hslash | right; right; right].
      by split.
Qed.

(** ** The loops of [Tags] *)

Section Resolution.

Context `{Runtime}.

Lemma length_eqb_0 (s : string) :
  (String.length s =? 0) = bool_decide (s = EmptyString).
Proof. by destruct s. Qed.

Lemma imagesLoop_emits (result : Result) (timestamp : Time)
    (images : list Image) (tags : list api.ImageTag) :
  imagesLoop result timestamp images tags
  = tags ++ map (imageTag result timestamp)
              (filter (fun image => Digest image <> EmptyString) images).
Proof.
  revert tags; induction images as [|image images IH]; intros tags.
  - by rewrite app_nil_r.
  - cbn [imagesLoop]. rewrite filter_cons, length_eqb_0.
    destruct (decide (Digest image = EmptyString)) as [Hd|Hd].
    + rewrite bool_decide_eq_true_2 by done.
      rewrite decide_False by (intros Hn; by apply Hn). apply IH.
    + rewrite bool_decide_eq_false_2 by done.
      rewrite decide_True by done.
      rewrite IH, <- app_assoc. done.
Qed.

Lemma resultEmissions_no_images (result : Result) :
  Images result = [] -> resultEmissions result = [].
Proof.
  unfold resultEmissions. intros ->. by destruct (time_Parse _).
Qed.

Lemma resultsLoop_emits (results : list Result) (tags : list api.ImageTag) :
  timestampsParse results ->
  resultsLoop results tags = Ok (tags ++ flat_map resultEmissions results).
Proof.
  intros Hparse; revert tags.
  induction Hparse as [|result results Hts _ IH]; intros tags.
  - by rewrite app_nil_r.
  - cbn [resultsLoop flat_map].
    destruct (Images result) as [|image images] eqn:Himages.
    + rewrite resultEmissions_no_images by done. apply IH.
    + destruct Hts as [timestamp Hts]; [done|].
      cbn [length Nat.eqb]. unfold resultEmissions.
      rewrite Hts, IH, imagesLoop_emits, Himages, <- app_assoc. done.
Qed.

Lemma resultsLoop_aborts (results : list Result) (tags : list api.ImageTag) :
  badTimestamp results ->
  exists err,
    resultsLoop results tags
    = Err ("failed to parse image timestamp: " +:+ err).
Proof.
  intros Hbad; revert tags.
  induction Hbad as [result results [Himages Hts]|result results _ IH];
    intros tags; cbn [resultsLoop].
  - destruct (Images result); [done|]. cbn [length Nat.eqb].
    destruct (time_Parse (Timestamp result)) as [|err]; [done|].
    by exists err.
  - destruct (length (Images result) =? 0); [apply IH|].
    destruct (time_Parse (Timestamp result)) as [timestamp|err];
      [apply IH | by exists err].
Qed.

Lemma timestamps_parse_or_not (results : list Result) :
  timestampsParse results \/ badTimestamp results.
Proof.
  induction results as [|result results [IH|IH]].
  - left. constructor.
  - destruct (Images result) as [|image images] eqn:Himages.
    { left. constructor; [by rewrite Himages | done]. }
    destruct (time_Parse (Timestamp result)) as [timestamp|err] eqn:Hts.
    + left. constructor; [by exists timestamp | done].
    + right. apply Exists_cons_hd. rewrite Himages, Hts. by split.
  - right. by apply Exists_cons_tl.
Qed.



(** [doRequest], step by step. *)
Lemma tagRequest_built (c : Client) (u : url.URL) :
  (let req :=
     http.withURL (url.withScheme "https" u)
       {| http.Method := http.MethodGet; http.URL := u; http.Hdr := ∅;
          http.ReqBody := None |} in
   if 0 <? String.length (JWT (options c))
   then http.withHeader
          (http.Add "Authorization" ("JWT " +:+ JWT (options c))
                    (http.Hdr req)) req
   else req)
  = tagRequest c u.
Proof.
  unfold tagRequest, tagHeader, http.withHeader, http.withURL, http.Add.
  cbn. destruct (JWT (options c)) eqn:Hjwt; cbn; [done|].
  rewrite lookup_empty. cbn. by rewrite insert_empty.
Qed.

Lemma doRequest_eq (c : Client) (url : string) (log : list http.Request) :
  doRequest c url log
  = match url_Parse url with
    | Err err => (Err err, log)
    | Ok u =>
        (match RoundTrip log (tagRequest c u) with
         | Err err => Err ("failed to get docker image: " +:+ err)
         | Ok resp =>
             match http.Body resp with
             | Err err => Err err
             | Ok body =>
                 match json_Unmarshal_TagResponse body with
                 | Err _ => Err ("unexpected image tags response: " +:+ body)
                 | Ok response => Ok response
                 end
             end
         end, log ++ [tagRequest c u])
    end.
Proof.
  unfold doRequest, bind, lift, wrap, Do, NewRequest, fail, ret.
  destruct (url_Parse url) as [u|err]; [|done].
  cbn [http.URL]. rewrite tagRequest_built.
  destruct (RoundTrip log (tagRequest c u)) as [resp|err]; [|done].
  destruct (http.Body resp) as [body|err]; [|done].
  by destruct (json_Unmarshal_TagResponse body).
Qed.

Lemma doRequest_served (c : Client) (url : string) (page : TagResponse)
    (pages : list TagResponse) (log : list http.Request) :
  serves url (page :: pages) log ->
  exists req,
    requestFor c url req
    /\ doRequest c url log = (Ok page, log ++ [req])
    /\ serves (Next page) pages (log ++ [req]).
Proof.
  intros (_ & u & body & Hu & Hbody & Hserve).
  destruct (Hserve (tagRequest c u)) as [[status Hresp] Hnext]; [done..|].
  exists (tagRequest c u). split; [by exists u|]. split; [|done].
  by rewrite doRequest_eq, Hu, Hresp; cbn; rewrite Hbody.
Qed.

Lemma serves_nonempty_url (url : string) (page : TagResponse)
    (pages : list TagResponse) (log : list http.Request) :
  serves url (page :: pages) log -> String.eqb url EmptyString = false.
Proof. intros [Hurl _]. by apply String.eqb_neq. Qed.

Lemma pagesLoop_served (c : Client) (pages : list TagResponse) :
  forall (url : string) (tags : list api.ImageTag) (log : list http.Request)
         (fuel : nat),
    serves url pages log ->
    Forall (fun page => timestampsParse (Results page)) pages ->
    length pages <= fuel ->
    exists sent,
      pagesLoop fuel c url tags log
      = (Some (Ok (tags ++ flat_map pageEmissions pages)), log ++ sent)
      /\ Forall2 (requestFor c) (pageURLs url pages) sent.
Proof.
  induction pages as [|page pages IH]; intros url tags log fuel Hserve Hparse Hfuel.
  - cbn in Hserve. subst url. exists []. rewrite !app_nil_r.
    split; [by destruct fuel | constructor].
  - destruct fuel as [|fuel]; [cbn in Hfuel; lia|].
    cbn [pagesLoop]. rewrite (serves_nonempty_url _ _ _ _ Hserve).
    destruct (doRequest_served c _ _ _ _ Hserve) as (req & Hreq & -> & Hnext).
    apply Forall_cons in Hparse as [Hpage Hparse].
    rewrite (resultsLoop_emits _ tags Hpage).
    destruct (IH (Next page) (tags ++ flat_map resultEmissions (Results page))
                 (log ++ [req]) fuel Hnext Hparse) as (sent & -> & Hsent).
    { cbn in Hfuel. lia. }
    exists (req :: sent). cbn [flat_map pageURLs].
    rewrite <- !app_assoc. split; [done | by constructor].
Qed.







Lemma doRequest_requests (c : Client) (url : string)
    (log : list http.Request) :
  exists outcome sent,
    doRequest c url log = (outcome, log ++ sent)
    /\ Forall (fun req => exists u, req = tagRequest c u) sent.
Proof.
  rewrite doRequest_eq. destruct (url_Parse url) as [u|err].
  - eexists _, [tagRequest c u]. split; [done|].
    constructor; [by exists u | constructor].
  - exists (Err err), []. by rewrite app_nil_r.
Qed.

Lemma pagesLoop_requests (c : Client) (fuel : nat) :
  forall (url : string) (tags : list api.ImageTag) (log : list http.Request),
    exists sent,
      snd (pagesLoop fuel c url tags log) = log ++ sent
      /\ Forall (fun req => exists u, req = tagRequest c u) sent.
Proof.
  induction fuel as [|fuel IH]; intros url tags log; cbn [pagesLoop].
  - exists []. rewrite app_nil_r. by destruct (String.eqb url EmptyString).
  - destruct (String.eqb url EmptyString).
    { exists []. by rewrite app_nil_r. }
    destruct (doRequest_requests c url log) as (outcome & sent & -> & Hsent).
    destruct outcome as [page|err]; [|by exists sent].
    destruct (resultsLoop (Results page) tags) as [tags'|err];
      [|by exists sent].
    destruct (IH (Next page) tags' (log ++ sent)) as (sent' & -> & Hsent').
    exists (sent ++ sent'). rewrite <- app_assoc.
    split; [done | by apply Forall_app].
Qed.


End Resolution.

(** ** Authentication and construction, step by step *)

Section Construction.

Context `{Runtime}.

Lemma length_pos (s : string) :
  (0 <? String.length s) = negb (bool_decide (s = EmptyString)).
Proof. by destruct s. Qed.

Lemma loginRequest_built (opts : Options) (u : url.URL) :
  http.withHeader
    (http.Set_ "Content-Type" "application/json" ∅)
    {| http.Method := http.MethodPost; http.URL := u; http.Hdr := ∅;
       http.ReqBody := Some (loginBody opts) |}
  = loginRequest opts u.
Proof.
  unfold loginRequest, http.withHeader, http.Set_. cbn.
  by rewrite insert_empty.
Qed.

Lemma basicAuthSetup_eq (client : http.Client) (opts : Options)
    (log : list http.Request) :
  basicAuthSetup client opts log
  = match url_Parse (LoginURL opts) with
    | Err err => (Err err, log)
    | Ok u =>
        (match RoundTrip log (loginRequest opts u) with
         | Err err => Err err
         | Ok resp =>
             match http.Body resp with
             | Err err => Err err
             | Ok body =>
                 if negb (http.StatusCode resp =? http.StatusOK)%Z
                 then Err body
                 else match json_Unmarshal_AuthResponse body with
                      | Err err => Err err
                      | Ok response => Ok (Token response)
                      end
             end
         end, log ++ [loginRequest opts u])
    end.
Proof.
  unfold basicAuthSetup, bind, lift, Do, NewRequest, fail, ret.
  destruct (url_Parse (LoginURL opts)) as [u|err]; [|done].
  cbn [http.Hdr]. rewrite loginRequest_built.
  destruct (RoundTrip log (loginRequest opts u)) as [resp|err]; [|done].
  destruct (http.Body resp) as [body|err]; [|done].
  destruct (negb (http.StatusCode resp =? http.StatusOK)%Z); [done|].
  by destruct (json_Unmarshal_AuthResponse body).
Qed.

End Construction.

(** ** The registry double at work *)

Section FixtureFacts.

Import Fixture.

#[local] Existing Instance runtime.

Ltac answered status :=
  exists status; unfold RoundTrip, runtime, roundTrip;
  match goal with Hurl : http.URL _ = _ |- _ => by rewrite Hurl end.

Lemma nginx_served (log : list http.Request) :
  serves (H:=runtime) nginxURL [nginxPage1; nginxPage2] log.
Proof.
  split; [done|]. eexists _, (renderPage nginxPage1).
  split; [reflexivity|]. split; [reflexivity|]. intros req _ Hurl.
  split; [answered 200%Z|].
  split; [done|]. eexists _, (renderPage nginxPage2).
  split; [reflexivity|]. split; [reflexivity|]. intros req' _ Hurl'.
  split; [answered 404%Z | reflexivity].
Qed.

Lemma nginx_parses :
  Forall (fun page => timestampsParse (H:=runtime) (Results page))
         [nginxPage1; nginxPage2].
Proof.
  repeat constructor; cbn; intros Himages; first [done | by eexists].
Qed.



Example Tags_nginx :
  Tags (H:=runtime) 2 anonymous "nginx" []
  = (Some (Ok [ {| api.Tag := "v1"; api.SHA := "sha256:aaa";
                   api.Timestamp := 1672531200000000000%Z;
                   api.OS := "linux"; api.Architecture := "amd64" |};
                {| api.Tag := "v1"; api.SHA := "sha256:bbb";
                   api.Timestamp := 1672531200000000000%Z;
                   api.OS := "linux"; api.Architecture := "arm" |};
                {| api.Tag := "v2"; api.SHA := "sha256:ccc";
                   api.Timestamp := 1675209600500000000%Z;
                   api.OS := "linux"; api.Architecture := "amd64" |} ]),
     [ tagRequest anonymous
         {| url.Scheme := "https"; url.Host := EmptyString;
            url.Path
            := "registry.hub.docker.com/v2/repositories/library/nginx/tags";
            url.RawQuery := EmptyString |};
       tagRequest anonymous
         {| url.Scheme := "https"; url.Host := EmptyString;
            url.Path
            := "registry.hub.docker.com/v2/repositories/library/nginx/tags?page=2";
            url.RawQuery := EmptyString |} ]).
Proof. vm_compute. reflexivity. Qed.

Example Tags_out_of_fuel :
  fst (Tags (H:=runtime) 1 anonymous "nginx" []) = None.
Proof. vm_compute. reflexivity. Qed.

Example New_logs_in :
  New (H:=runtime)
      {| LoginURL := loginURL; Username := "alice"; Password := "secret";
         JWT := EmptyString |} []
  = (Ok {| httpClient := {| http.Timeout := 5000000000 |};
           options := {| LoginURL := loginURL; Username := "alice";
                         Password := "secret"; JWT := "abc" |} |},
     [ loginRequest {| LoginURL := loginURL; Username := "alice";
                       Password := "secret"; JWT := EmptyString |}
         {| url.Scheme := "https"; url.Host := EmptyString;
            url.Path := "hub.docker.com/v2/users/login/";
            url.RawQuery := EmptyString |} ]).
Proof. vm_compute. reflexivity. Qed.

Example New_login_refused :
  fst (New (H:=runtime)
           {| LoginURL := loginURL; Username := "mallory";
              Password := "guess"; JWT := EmptyString |} [])
  = Err "failed to setup auth: incorrect authentication credentials".
Proof. vm_compute. reflexivity. Qed.

Example New_without_credentials :
  New (H:=runtime)
      {| LoginURL := loginURL; Username := EmptyString;
         Password := EmptyString; JWT := "abc" |} []
  = (Ok authenticated, []).
Proof. reflexivity. Qed.

End FixtureFacts.

(** * The claims *)


(** C2: when the registry delivers a chain of pages, linked by their
    non-empty [next] fields and ended by an empty one, and the timestamps
    of the results with images parse, [Tags] sends exactly one GET per
    page, to the URLs of the chain in order, and returns the tags of the
    pages, of their results and of their images in the order of delivery. *)
Theorem Tags_follows_next `{Runtime} (c : Client) (imageURL : string)
    (pages : list TagResponse) (log : list http.Request) (fuel : nat) :
  serves (repoURL (repoPath imageURL)) pages log ->
  Forall (fun page => timestampsParse (Results page)) pages ->
  length pages <= fuel ->
  exists sent,
    Tags fuel c imageURL log
    = (Some (Ok (flat_map pageEmissions pages)), log ++ sent)
    /\ length sent = length pages
    /\ Forall (fun req => http.Method req = http.MethodGet) sent
    /\ Forall2 (requestFor c) (pageURLs (repoURL (repoPath imageURL)) pages)
               sent.
Proof.
  intros Hserve Hparse Hfuel. unfold Tags.
  destruct (pagesLoop_served c pages _ [] log fuel Hserve Hparse Hfuel)
    as (sent & Heq & Hsent).
  exists sent. split; [done|]. split; [|split; [|done]].
  - apply Forall2_length in Hsent. rewrite <- Hsent. clear.
    generalize (repoURL (repoPath imageURL)).
    induction pages as [|page pages IH]; intros url; cbn; [done|].
    by rewrite IH.
  - eapply Forall2_Forall_r; [exact Hsent|].
    apply Forall_forall. intros url _ req (u & _ & ->). done.
Qed.



(** C7: every request that [Tags] sends is a GET whose header is the
    single entry [Authorization: JWT <token>] when the token of the client
    is not empty, and is empty when it is; [doRequest] sends one such
    request whenever its URL parses. *)
Theorem Tags_requests_carry_token `{Runtime} (fuel : nat) (c : Client)
    (imageURL url : string) (log : list http.Request) :
  (exists sent,
     snd (Tags fuel c imageURL log) = log ++ sent
     /\ Forall (fun req =>
                  http.Method req = http.MethodGet
                  /\ http.Hdr req
                     = if decide (JWT (options c) = EmptyString) then ∅
                       else {[ "Authorization"
                               := ["JWT " +:+ JWT (options c)] ]})
               sent)
  /\ match url_Parse url with
     | Ok u => snd (doRequest c url log) = log ++ [tagRequest c u]
     | Err _ => snd (doRequest c url log) = log
     end.
Proof.
  split.
  - unfold Tags.
    destruct (pagesLoop_requests c fuel (repoURL (repoPath imageURL)) [] log)
      as (sent & Hlog & Hsent).
    exists sent. split; [done|].
    eapply Forall_impl; [exact Hsent|]. by intros req [u ->].
  - rewrite doRequest_eq. by destruct (url_Parse url).
Qed.

(** C10: the status of a tag-listing response is not looked at.  When the
    transport delivers a response whose body could be read, [doRequest]
    returns the decoded page if the body decodes and an error that quotes
    the body if it does not, whatever the status; and the resolution goes
    on with the results and the [next] of a decoded page. *)
Theorem doRequest_ignores_status `{Runtime} (c : Client) (url : string)
    (u : url.URL) (log : list http.Request) (status : Z) (body : string)
    (tags : list api.ImageTag) (fuel : nat) :
  url <> EmptyString ->
  url_Parse url = Ok u ->
  RoundTrip log (tagRequest c u)
  = Ok {| http.StatusCode := status; http.Body := Ok body |} ->
  doRequest c url log
  = (match json_Unmarshal_TagResponse body with
     | Ok page => Ok page
     | Err _ => Err ("unexpected image tags response: " +:+ body)
     end, log ++ [tagRequest c u])
  /\ pagesLoop (S fuel) c url tags log
     = match json_Unmarshal_TagResponse body with
       | Ok page =>
           match resultsLoop (Results page) tags with
           | Ok tags' =>
               pagesLoop fuel c (Next page) tags' (log ++ [tagRequest c u])
           | Err err => (Some (Err err), log ++ [tagRequest c u])
           end
       | Err _ =>
           (Some (Err ("unexpected image tags response: " +:+ body)),
            log ++ [tagRequest c u])
       end.
Proof.
  intros Hurl Hu Hresp.
  assert (doRequest c url log
          = (match json_Unmarshal_TagResponse body with
             | Ok page => Ok page
             | Err _ => Err ("unexpected image tags response: " +:+ body)
             end, log ++ [tagRequest c u])) as Hdo.
  { rewrite doRequest_eq, Hu, Hresp. cbn.
    by destruct (json_Unmarshal_TagResponse body). }
  split; [done|]. cbn [pagesLoop].
  apply String.eqb_neq in Hurl. rewrite Hurl, Hdo.
  by destruct (json_Unmarshal_TagResponse body).
Qed.

(** C5: with a non-empty token and a non-empty username or password, [New]
    returns the error of the conflict and no client, and sends nothing. *)
Theorem New_rejects_token_with_credentials `{Runtime} (opts : Options)
    (log : list http.Request) :
  JWT opts <> EmptyString ->
  Username opts <> EmptyString \/ Password opts <> EmptyString ->
  New opts log
  = (Err "cannot specify JWT as well as username/password", log).
Proof.
  intros Hjwt Hcred. unfold New. rewrite !length_pos.
  rewrite (bool_decide_eq_false_2 _ Hjwt). cbn [negb].
  destruct Hcred as [Hu|Hp].
  - by rewrite (bool_decide_eq_false_2 _ Hu).
  - rewrite (bool_decide_eq_false_2 _ Hp). cbn [negb]. by rewrite orb_true_r.
Qed.

(** C6: when the login endpoint answers with a body that could be read,
    [basicAuthSetup] returns the [token] of the decoded body if the status
    is 200 and the body decodes, the decoding error if the status is 200
    and the body does not decode, and an error whose message is the body
    if the status is not 200. *)
Theorem basicAuthSetup_by_status `{Runtime} (client : http.Client)
    (opts : Options) (u : url.URL) (log : list http.Request) (status : Z)
    (body : string) :
  url_Parse (LoginURL opts) = Ok u ->
  RoundTrip log (loginRequest opts u)
  = Ok {| http.StatusCode := status; http.Body := Ok body |} ->
  (status = 200%Z ->
   forall response,
     json_Unmarshal_AuthResponse body = Ok response ->
     fst (basicAuthSetup client opts log) = Ok (Token response))
  /\ (status = 200%Z ->
      forall err,
        json_Unmarshal_AuthResponse body = Err err ->
        fst (basicAuthSetup client opts log) = Err err)
  /\ (status <> 200%Z -> fst (basicAuthSetup client opts log) = Err body).
Proof.
  intros Hu Hresp. rewrite basicAuthSetup_eq, Hu, Hresp. cbn.
  unfold http.StatusOK. split; [|split].
  - intros -> response ->. done.
  - intros -> err ->. done.
  - intros Hstatus. apply Z.eqb_neq in Hstatus. by rewrite Hstatus.
Qed.

(** C4: the body of the login request is the raw interpolation of the
    username and of the password between fixed texts.  A password with a
    double quote is therefore not escaped: the credentials
    [x] / [y", "password": "z] and [x", "password": "y] / [z] give one and
    the same body, so the body is not an encoding of the credentials, and
    this body is what [basicAuthSetup] hands to the transport. *)
Theorem loginBody_interpolates_raw :
  let injected := dq +:+ ", " +:+ dq +:+ "password" +:+ dq +:+ ": " +:+ dq in
  let opts1 :=
    {| LoginURL := Fixture.loginURL; Username := "x";
       Password := "y" +:+ injected +:+ "z"; JWT := EmptyString |} in
  let opts2 :=
    {| LoginURL := Fixture.loginURL; Username := "x" +:+ injected +:+ "y";
       Password := "z"; JWT := EmptyString |} in
  (exists before between after,
     forall opts,
       loginBody opts
       = before +:+ Username opts +:+ between +:+ Password opts +:+ after)
  /\ Password opts1 <> Password opts2
  /\ loginBody opts1 = loginBody opts2
  /\ ~ (exists decode : string -> string * string,
          forall opts, decode (loginBody opts) = (Username opts, Password opts))
  /\ (forall client,
        map http.ReqBody
            (snd (basicAuthSetup (H:=Fixture.runtime) client opts1 []))
        = [Some (loginBody opts2)]).
Proof.
  intros injected opts1 opts2. split; [|split; [|split; [|split]]].
  - exists ("{" +:+ dq +:+ "username" +:+ dq +:+ ": " +:+ dq),
           (dq +:+ ", " +:+ dq +:+ "password" +:+ dq +:+ ": " +:+ dq),
           (dq +:+ "}").
    intros opts. unfold loginBody. cbn. done.
  - done.
  - reflexivity.
  - intros [decode Hdecode].
    pose proof (Hdecode opts1) as H1. pose proof (Hdecode opts2) as H2.
    change (loginBody opts2) with (loginBody opts1) in H2.
    rewrite H1 in H2. done.
  - intros client. vm_compute. reflexivity.
Qed.

(** * The statements at work on the registry double *)


Lemma Tags_follows_next_witness :
  exists sent,
    Tags (H:=Fixture.runtime) 2 Fixture.authenticated "docker.io/nginx" []
    = (Some (Ok (flat_map (pageEmissions (H:=Fixture.runtime))
                          [Fixture.nginxPage1; Fixture.nginxPage2])),
       [] ++ sent)
    /\ length sent = 2
    /\ Forall (fun req => http.Method req = http.MethodGet) sent
    /\ Forall2 (requestFor (H:=Fixture.runtime) Fixture.authenticated)
               [Fixture.nginxURL; Fixture.nginxURL2] sent.
Proof.
  apply (Tags_follows_next (H:=Fixture.runtime) Fixture.authenticated
           "docker.io/nginx" [Fixture.nginxPage1; Fixture.nginxPage2] [] 2).
  - apply (nginx_served []).
  - apply nginx_parses.
  - cbn. lia.
Defined.


Lemma doRequest_ignores_status_witness :
  doRequest (H:=Fixture.runtime) Fixture.anonymous Fixture.nginxURL2 []
  = (Ok Fixture.nginxPage2,
     [tagRequest Fixture.anonymous
        {| url.Scheme := "https"; url.Host := EmptyString;
           url.Path := gostrings.TrimPrefix Fixture.nginxURL2 "https://";
           url.RawQuery := EmptyString |}]).
Proof.
  refine (proj1 (doRequest_ignores_status (H:=Fixture.runtime)
                   Fixture.anonymous Fixture.nginxURL2 _ [] 404
                   (Fixture.renderPage Fixture.nginxPage2) [] 0 _ _ _)).
  - done.
  - reflexivity.
  - reflexivity.
Defined.

Lemma New_rejects_token_with_credentials_witness :
  New (H:=Fixture.runtime)
      {| LoginURL := Fixture.loginURL; Username := "alice";
         Password := EmptyString; JWT := "abc" |} []
  = (Err "cannot specify JWT as well as username/password", []).
Proof.
  apply (New_rejects_token_with_credentials (H:=Fixture.runtime)).
  - cbn. discriminate.
  - left. cbn. discriminate.
Defined.

Lemma basicAuthSetup_by_status_witness :
  fst (basicAuthSetup (H:=Fixture.runtime) {| http.Timeout := 5000000000 |}
         {| LoginURL := Fixture.loginURL; Username := "alice";
            Password := "secret"; JWT := EmptyString |} [])
  = Ok "abc"
  /\ fst (basicAuthSetup (H:=Fixture.runtime)
            {| http.Timeout := 5000000000 |}
            {| LoginURL := Fixture.loginURL; Username := "mallory";
               Password := "guess"; JWT := EmptyString |} [])
     = Err "incorrect authentication credentials".
Proof.
  split.
  - refine (proj1 (basicAuthSetup_by_status (H:=Fixture.runtime) _ _ _ []
                     200 Fixture.tokenBody _ _)
                  eq_refl {| Token := "abc" |} _); reflexivity.
  - refine (proj2 (proj2 (basicAuthSetup_by_status (H:=Fixture.runtime) _ _ _
                            [] 401 "incorrect authentication credentials"
                            _ _)) _); [reflexivity | reflexivity | done].
Defined.

(** * Further properties of the client *)

(** ** The repository path *)


(** X2: a reference that begins with neither registry prefix names the
    same repository bare, behind [docker.io/] and behind
    [registry.hub.docker.com/], and [Tags] does the same for the three
    spellings. *)
Theorem repoPath_spellings_agree (path : string) :
  IsClient path = false ->
  repoPath ("docker.io/" +:+ path) = repoPath path
  /\ repoPath ("registry.hub.docker.com/" +:+ path) = repoPath path
  /\ repoPath path
     = (if gostrings.hasByte "/" path then path else "library/" +:+ path)
  /\ forall (R : Runtime) (fuel : nat) (c : Client)
            (log : list http.Request),
       Tags fuel c ("docker.io/" +:+ path) log = Tags fuel c path log
       /\ Tags fuel c ("registry.hub.docker.com/" +:+ path) log
          = Tags fuel c path log.
Proof.
  unfold IsClient, imagePrefix, imagePrefixHub.
  intros [Hio Hhub]%orb_false_iff.
  assert (repoPath ("docker.io/" +:+ path) = repoPath path) as Heq1.
  { unfold repoPath, imagePrefix, imagePrefixHub.
    rewrite HasPrefix_app, TrimPrefix_app, Hio. done. }
  assert (repoPath ("registry.hub.docker.com/" +:+ path) = repoPath path)
    as Heq2.
  { unfold repoPath, imagePrefix, imagePrefixHub.
    rewrite Hio.
    assert (gostrings.HasPrefix ("registry.hub.docker.com/" +:+ path)
                                "docker.io/" = false) as -> by reflexivity.
    rewrite HasPrefix_app, TrimPrefix_app, Hhub. done. }
  split; [done|]. split; [done|]. split.
  - unfold repoPath, imagePrefix, imagePrefixHub.
    rewrite Hio, Hhub, Split_byte_single.
    by destruct (gostrings.hasByte "/" path).
  - intros R fuel c log. unfold Tags. by rewrite Heq1, Heq2.
Qed.

(** ** The loop over the results *)

(** X3: a page is accepted exactly when the timestamp of every result with
    images parses, and then the tags are the given ones followed by the
    emissions of the page. *)
Theorem resultsLoop_accepts_iff `{Runtime} (results : list Result)
    (tags out : list api.ImageTag) :
  resultsLoop results tags = Ok out
  <-> timestampsParse results
      /\ out = tags ++ flat_map resultEmissions results.
Proof.
  split.
  - intros Hok. destruct (timestamps_parse_or_not results) as [Hp|Hbad].
    + split; [done|]. rewrite (resultsLoop_emits _ tags Hp) in Hok.
      by injection Hok as <-.
    + destruct (resultsLoop_aborts _ tags Hbad) as [err Herr].
      by rewrite Herr in Hok.
  - intros [Hp ->]. by apply resultsLoop_emits.
Qed.

(** X4: the error of a page is the one of its first result with images
    whose timestamp does not parse; the results after it are not looked
    at. *)
Theorem resultsLoop_first_failure `{Runtime} (before after : list Result)
    (result : Result) (err : error) (tags : list api.ImageTag) :
  timestampsParse before ->
  Images result <> [] ->
  time_Parse (Timestamp result) = Err err ->
  resultsLoop (before ++ result :: after) tags
  = Err ("failed to parse image timestamp: " +:+ err).
Proof.
  intros Hbefore Himages Herr. revert tags.
  induction Hbefore as [|first before Hts _ IH]; intros tags; cbn [app resultsLoop].
  - destruct (Images result); [done|]. cbn [length Nat.eqb].
    by rewrite Herr.
  - destruct (Images first) as [|image images] eqn:Hfirst; [apply IH|].
    destruct Hts as [timestamp ->]; [done|]. cbn [length Nat.eqb]. apply IH.
Qed.

(** ** The loop over the pages *)

Section Pagination.

Context `{Runtime}.

Lemma repoURL_nonempty (path : string) :
  String.eqb (repoURL path) EmptyString = false.
Proof. reflexivity. Qed.

Lemma doRequest_parsed (c : Client) (url : string) (u : url.URL)
    (log : list http.Request) :
  url_Parse url = Ok u ->
  exists outcome, doRequest c url log = (outcome, log ++ [tagRequest c u]).
Proof. intros Hu. rewrite doRequest_eq, Hu. by eexists. Qed.

Lemma doRequest_leads (c : Client) (url : string) (page : TagResponse)
    (pages : list TagResponse) (log : list http.Request)
    (final : string -> list http.Request -> Prop) :
  leads url (page :: pages) log final ->
  String.eqb url EmptyString = false
  /\ exists req,
       requestFor c url req
       /\ doRequest c url log = (Ok page, log ++ [req])
       /\ leads (Next page) pages (log ++ [req]) final.
Proof.
  intros (Hurl & u & body & Hu & Hbody & Hlead).
  split; [by apply String.eqb_neq|].
  destruct (Hlead (tagRequest c u)) as [[status Hresp] Hnext]; [done..|].
  exists (tagRequest c u). split; [by exists u|]. split; [|done].
  by rewrite doRequest_eq, Hu, Hresp; cbn; rewrite Hbody.
Qed.

(** Along a chain of pages the loop reaches the end of the chain with the
    emissions of the pages appended and one request per page sent. *)
Lemma pagesLoop_leads (c : Client) (pages : list TagResponse)
    (final : string -> list http.Request -> Prop) :
  forall (url : string) (tags : list api.ImageTag) (log : list http.Request)
         (fuel : nat),
    leads url pages log final ->
    Forall (fun page => timestampsParse (Results page)) pages ->
    exists url' sent,
      final url' (log ++ sent)
      /\ length sent = length pages
      /\ pagesLoop (length pages + fuel) c url tags log
         = pagesLoop fuel c url' (tags ++ flat_map pageEmissions pages)
                     (log ++ sent).
Proof.
  induction pages as [|page pages IH]; intros url tags log fuel Hlead Hparse.
  - exists url, []. rewrite !app_nil_r. by cbn in *.
  - destruct (doRequest_leads c _ _ _ _ _ Hlead) as (Hurl & req & _ & Hdo & Hnext).
    apply Forall_cons in Hparse as [Hpage Hparse].
    destruct (IH (Next page) (tags ++ flat_map resultEmissions (Results page))
                 (log ++ [req]) fuel Hnext Hparse)
      as (url' & sent & Hfinal & Hlen & Hloop).
    exists url', (req :: sent).
    cbn [length Nat.add pagesLoop flat_map].
    rewrite Hurl, Hdo, (resultsLoop_emits _ tags Hpage), Hloop.
    rewrite <- !app_assoc in *. cbn [app] in *.
    split; [done|]. split; [by rewrite Hlen | done].
Qed.

Lemma pagesLoop_self_link (c : Client) (url : string) (u : url.URL)
    (body : string) (page : TagResponse) :
  url <> EmptyString ->
  url_Parse url = Ok u ->
  json_Unmarshal_TagResponse body = Ok page ->
  Next page = url ->
  timestampsParse (Results page) ->
  (forall log req,
     http.Method req = http.MethodGet ->
     http.URL req = url.withScheme "https" u ->
     exists status,
       RoundTrip log req
       = Ok {| http.StatusCode := status; http.Body := Ok body |}) ->
  forall (fuel : nat) (tags : list api.ImageTag) (log : list http.Request),
    exists sent,
      pagesLoop fuel c url tags log = (None, log ++ sent)
      /\ length sent = fuel.
Proof.
  intros Hurl Hu Hbody Hnext Hparse Hserve.
  apply String.eqb_neq in Hurl.
  induction fuel as [|fuel IH]; intros tags log; cbn [pagesLoop]; rewrite Hurl.
  - exists []. by rewrite app_nil_r.
  - destruct (Hserve log (tagRequest c u)) as [status Hresp]; [done..|].
    rewrite doRequest_eq, Hu, Hresp. cbn. rewrite Hbody.
    rewrite (resultsLoop_emits _ tags Hparse), Hnext.
    destruct (IH (tags ++ flat_map resultEmissions (Results page))
                 (log ++ [tagRequest c u])) as (sent & -> & Hlen).
    exists (tagRequest c u :: sent). rewrite <- app_assoc. cbn.
    by rewrite Hlen.
Qed.

End Pagination.

(** X6: [Tags] never returns tags without having asked the registry: a
    successful resolution has sent at least one request, the first one for
    the tag list of the repository path. *)
Theorem Tags_asks_before_answering `{Runtime} (fuel : nat) (c : Client)
    (imageURL : string) (log : list http.Request)
    (tags : list api.ImageTag) :
  fst (Tags fuel c imageURL log) = Some (Ok tags) ->
  exists req sent,
    snd (Tags fuel c imageURL log) = log ++ req :: sent
    /\ requestFor c
         ("https://registry.hub.docker.com/v2/repositories/"
          +:+ repoPath imageURL +:+ "/tags") req.
Proof.
  unfold Tags. fold (repoURL (repoPath imageURL)).
  destruct fuel as [|fuel]; cbn [pagesLoop]; rewrite repoURL_nonempty;
    [done|].
  destruct (url_Parse (repoURL (repoPath imageURL))) as [u|err] eqn:Hu.
  2:{ by rewrite doRequest_eq, Hu. }
  destruct (doRequest_parsed c _ u log Hu) as [outcome ->].
  destruct outcome as [page|err]; [|done].
  destruct (resultsLoop (Results page) []) as [tags'|err]; [|done].
  intros _.
  destruct (pagesLoop_requests c fuel (Next page) tags'
                               (log ++ [tagRequest c u]))
    as (sent & -> & _).
  exists (tagRequest c u), sent. rewrite <- app_assoc.
  split; [done | by exists u].
Qed.

(** X7: whatever the registry answers, every request of [Tags] goes out
    with the scheme [https], also for a [next] link of another scheme,
    and without a body. *)
Theorem Tags_requests_secure `{Runtime} (fuel : nat) (c : Client)
    (imageURL : string) (log : list http.Request) :
  exists sent,
    snd (Tags fuel c imageURL log) = log ++ sent
    /\ Forall (fun req =>
                 url.Scheme (http.URL req) = "https"
                 /\ http.ReqBody req = None)
              sent.
Proof.
  unfold Tags.
  destruct (pagesLoop_requests c fuel (repoURL (repoPath imageURL)) [] log)
    as (sent & Hlog & Hsent).
  exists sent. split; [done|].
  eapply Forall_impl; [exact Hsent|]. by intros req [u ->].
Qed.

(** X8: when the transport fails on a page, after any number of pages that
    were delivered, [Tags] returns the wrapped transport error and none of
    the tags of the earlier pages, and the failed request is the last. *)
Theorem Tags_transport_failure `{Runtime} (c : Client) (imageURL : string)
    (pages : list TagResponse) (log : list http.Request) (fuel : nat)
    (err : error) :
  leads (repoURL (repoPath imageURL)) pages log (refused err) ->
  Forall (fun page => timestampsParse (Results page)) pages ->
  length pages < fuel ->
  exists sent,
    Tags fuel c imageURL log
    = (Some (Err ("failed to get docker image: " +:+ err)), log ++ sent)
    /\ length sent = S (length pages).
Proof.
  intros Hlead Hparse Hfuel. unfold Tags.
  replace fuel with (length pages + S (fuel - S (length pages))) by lia.
  destruct (pagesLoop_leads c pages _ _ [] log (S (fuel - S (length pages)))
                            Hlead Hparse)
    as (url' & sent & (Hurl & u & Hu & Hrefuse) & Hlen & ->).
  apply String.eqb_neq in Hurl. cbn [pagesLoop].
  rewrite Hurl, doRequest_eq, Hu, (Hrefuse (tagRequest c u)) by done.
  exists (sent ++ [tagRequest c u]). rewrite <- app_assoc.
  split; [done|]. rewrite List.length_app. cbn. lia.
Qed.

(** X9: when a page comes with a body that does not decode, whatever its
    status and after any number of pages that were delivered, [Tags]
    returns an error that quotes the body and none of the tags of the
    earlier pages. *)
Theorem Tags_undecodable_page `{Runtime} (c : Client) (imageURL : string)
    (pages : list TagResponse) (log : list http.Request) (fuel : nat)
    (body : string) :
  leads (repoURL (repoPath imageURL)) pages log (garbled body) ->
  Forall (fun page => timestampsParse (Results page)) pages ->
  length pages < fuel ->
  exists sent,
    Tags fuel c imageURL log
    = (Some (Err ("unexpected image tags response: " +:+ body)), log ++ sent)
    /\ length sent = S (length pages).
Proof.
  intros Hlead Hparse Hfuel. unfold Tags.
  replace fuel with (length pages + S (fuel - S (length pages))) by lia.
  destruct (pagesLoop_leads c pages _ _ [] log (S (fuel - S (length pages)))
                            Hlead Hparse)
    as (url' & sent & (Hurl & Hbody & u & Hu & Hanswer) & Hlen & ->).
  apply String.eqb_neq in Hurl. cbn [pagesLoop].
  destruct (Hanswer (tagRequest c u)) as [status Hresp]; [done..|].
  rewrite Hurl, doRequest_eq, Hu, Hresp. cbn.
  destruct (json_Unmarshal_TagResponse body) as [page|err]; [done|].
  exists (sent ++ [tagRequest c u]). rewrite <- app_assoc.
  split; [done|]. rewrite List.length_app. cbn. lia.
Qed.

(** X10: when the [next] link of a page is not empty and does not parse as
    a URL, [Tags] returns the parse error as it is and none of the tags,
    and sends no request for that link. *)
Theorem Tags_dangling_next `{Runtime} (c : Client) (imageURL : string)
    (pages : list TagResponse) (log : list http.Request) (fuel : nat)
    (err : error) :
  leads (repoURL (repoPath imageURL)) pages log (dangling err) ->
  Forall (fun page => timestampsParse (Results page)) pages ->
  length pages < fuel ->
  exists sent,
    Tags fuel c imageURL log = (Some (Err err), log ++ sent)
    /\ length sent = length pages.
Proof.
  intros Hlead Hparse Hfuel. unfold Tags.
  replace fuel with (length pages + S (fuel - S (length pages))) by lia.
  destruct (pagesLoop_leads c pages _ _ [] log (S (fuel - S (length pages)))
                            Hlead Hparse)
    as (url' & sent & (Hurl & Hu) & Hlen & ->).
  apply String.eqb_neq in Hurl. cbn [pagesLoop].
  rewrite Hurl, doRequest_eq, Hu. by exists sent.
Qed.

(** X11: the loop has no bound of its own.  When the first page links to
    itself and the registry keeps delivering it, [Tags] does not return:
    under every bound it is still fetching, with one request sent per unit
    of the bound. *)
Theorem Tags_self_link_never_returns `{Runtime} (c : Client)
    (imageURL : string) (u : url.URL) (body : string) (page : TagResponse) :
  url_Parse (repoURL (repoPath imageURL)) = Ok u ->
  json_Unmarshal_TagResponse body = Ok page ->
  Next page = repoURL (repoPath imageURL) ->
  timestampsParse (Results page) ->
  (forall log req,
     http.Method req = http.MethodGet ->
     http.URL req = url.withScheme "https" u ->
     exists status,
       RoundTrip log req
       = Ok {| http.StatusCode := status; http.Body := Ok body |}) ->
  forall (fuel : nat) (log : list http.Request),
    exists sent,
      Tags fuel c imageURL log = (None, log ++ sent) /\ length sent = fuel.
Proof.
  intros Hu Hbody Hnext Hparse Hserve fuel log. unfold Tags.
  apply (pagesLoop_self_link c _ u body page);
    first [done | apply String.eqb_neq, repoURL_nonempty].
Qed.

(** ** Construction *)

Section ConstructionFacts.

Context `{Runtime}.

Lemma New_eq (opts : Options) (log : list http.Request) :
  New opts log
  = if decide (Username opts = EmptyString /\ Password opts = EmptyString)
    then (Ok {| httpClient := {| http.Timeout := 5000000000 |};
                options := opts |}, log)
    else if decide (JWT opts = EmptyString)
         then match basicAuthSetup {| http.Timeout := 5000000000 |} opts log
              with
              | (Ok token, log') =>
                  (Ok {| httpClient := {| http.Timeout := 5000000000 |};
                         options := {| LoginURL := LoginURL opts;
                                       Username := Username opts;
                                       Password := Password opts;
                                       JWT := token |} |}, log')
              | (Err err, log') =>
                  (Err ("failed to setup auth: " +:+ err), log')
              end
         else (Err "cannot specify JWT as well as username/password", log).
Proof.
  unfold New, bind, wrap, ret, fail.
  change (1000000000 * 5)%Z with 5000000000%Z.
  destruct opts as [login user pass jwt]; cbn [Username Password JWT LoginURL].
  destruct user as [|a user]; cbn -[basicAuthSetup].
  - destruct pass as [|b pass]; cbn -[basicAuthSetup].
    + by rewrite decide_True.
    + rewrite decide_False by (intros [_ Hp]; done).
      destruct jwt; cbn -[basicAuthSetup]; [|done].
      match goal with
      | |- context [basicAuthSetup ?cl ?o log] =>
          by destruct (basicAuthSetup cl o log) as [[token|err] log']
      end.
  - rewrite decide_False by (intros [Hu _]; done).
    destruct jwt; cbn -[basicAuthSetup]; [|done].
    match goal with
    | |- context [basicAuthSetup ?cl ?o log] =>
        by destruct (basicAuthSetup cl o log) as [[token|err] log']
    end.
Qed.

Lemma basicAuthSetup_parsed (client : http.Client) (opts : Options)
    (u : url.URL) (log : list http.Request) :
  url_Parse (LoginURL opts) = Ok u ->
  exists outcome,
    basicAuthSetup client opts log = (outcome, log ++ [loginRequest opts u]).
Proof. intros Hu. rewrite basicAuthSetup_eq, Hu. by eexists. Qed.

Lemma basicAuthSetup_unparsed (client : http.Client) (opts : Options)
    (err : error) (log : list http.Request) :
  url_Parse (LoginURL opts) = Err err ->
  basicAuthSetup client opts log = (Err err, log).
Proof. intros Hu. by rewrite basicAuthSetup_eq, Hu. Qed.

End ConstructionFacts.

(** X12: [New] sends at most one request.  It sends the login request, and
    only that, exactly when the configuration has credentials and no token
    and the login URL parses; in every other case it sends nothing. *)
Theorem New_sends_only_login `{Runtime} (opts : Options)
    (log : list http.Request) :
  (hasCredentials opts /\ JWT opts = EmptyString
   /\ exists u,
        url_Parse (LoginURL opts) = Ok u
        /\ snd (New opts log) = log ++ [loginRequest opts u])
  \/ (~ (hasCredentials opts /\ JWT opts = EmptyString
         /\ exists u, url_Parse (LoginURL opts) = Ok u)
      /\ snd (New opts log) = log).
Proof.
  rewrite New_eq. unfold hasCredentials.
  destruct (decide (Username opts = EmptyString
                    /\ Password opts = EmptyString)) as [[Hu Hp]|Hcred].
  { right. split; [|done]. intros [[Hne|Hne] _]; done. }
  assert (Username opts <> EmptyString \/ Password opts <> EmptyString)
    as Hhas.
  { destruct (decide (Username opts = EmptyString)); [|by left].
    right. intros Hp. by apply Hcred. }
  destruct (decide (JWT opts = EmptyString)) as [Hjwt|Hjwt].
  2:{ right. split; [|done]. by intros (_ & Hj & _). }
  destruct (url_Parse (LoginURL opts)) as [u|err] eqn:Hparse.
  - left. split; [done|]. split; [done|]. exists u. split; [done|].
    destruct (basicAuthSetup_parsed {| http.Timeout := 5000000000 |}
                                    opts u log Hparse) as [outcome ->].
    by destruct outcome.
  - right. split; [by intros (_ & _ & u & Hu)|].
    by rewrite (basicAuthSetup_unparsed _ opts err log Hparse).
Qed.

(** X13: [New] returns a client only without credentials, and then with
    the given options and without a request, or after a login that was
    answered with status 200 and a body that decodes, and then with the
    token of that body; the login URL, the username and the password of
    the client are the given ones and its timeout is five seconds. *)
Theorem New_client_origin `{Runtime} (opts : Options)
    (log log' : list http.Request) (c : Client) :
  New opts log = (Ok c, log') ->
  LoginURL (options c) = LoginURL opts
  /\ Username (options c) = Username opts
  /\ Password (options c) = Password opts
  /\ http.Timeout (httpClient c) = 5000000000%Z
  /\ ((~ hasCredentials opts /\ JWT (options c) = JWT opts /\ log' = log)
      \/ (hasCredentials opts /\ JWT opts = EmptyString
          /\ exists u body response,
               url_Parse (LoginURL opts) = Ok u
               /\ RoundTrip log (loginRequest opts u)
                  = Ok {| http.StatusCode := 200; http.Body := Ok body |}
               /\ json_Unmarshal_AuthResponse body = Ok response
               /\ JWT (options c) = Token response
               /\ log' = log ++ [loginRequest opts u])).
Proof.
  rewrite New_eq. unfold hasCredentials.
  destruct (decide (Username opts = EmptyString
                    /\ Password opts = EmptyString)) as [[Hu Hp]|Hcred].
  { intros [= <- <-]. repeat (split; [done|]). left.
    split; [|done]. intros [Hne|Hne]; done. }
  assert (Username opts <> EmptyString \/ Password opts <> EmptyString)
    as Hhas.
  { destruct (decide (Username opts = EmptyString)); [|by left].
    right. intros Hp. by apply Hcred. }
  destruct (decide (JWT opts = EmptyString)) as [Hjwt|Hjwt]; [|done].
  rewrite basicAuthSetup_eq.
  destruct (url_Parse (LoginURL opts)) as [u|err]; [|done].
  destruct (RoundTrip log (loginRequest opts u)) as [[status rbody]|err]
    eqn:Hresp; [|done].
  cbn [http.Body http.StatusCode].
  destruct rbody as [body|err]; [|done].
  unfold http.StatusOK.
  destruct (status =? 200)%Z eqn:Hstatus; [|done].
  apply Z.eqb_eq in Hstatus as ->. cbn [negb].
  destruct (json_Unmarshal_AuthResponse body) as [response|err] eqn:Hbody;
    [|done].
  intros [= <- <-]. repeat (split; [done|]). right.
  split; [done|]. split; [done|]. by exists u, body, response.
Qed.

(** X14: a login that is answered with another status than 200 makes [New]
    fail with the body of the answer behind the prefix of the construction
    error, after the one login request; and every error of [New], for
    every configuration and every registry, is the one of the conflict or
    begins with that prefix. *)
Theorem New_login_refused_error `{Runtime} :
  (forall (opts : Options) (u : url.URL) (log : list http.Request)
          (status : Z) (body : string),
     hasCredentials opts ->
     JWT opts = EmptyString ->
     url_Parse (LoginURL opts) = Ok u ->
     RoundTrip log (loginRequest opts u)
     = Ok {| http.StatusCode := status; http.Body := Ok body |} ->
     status <> 200%Z ->
     New opts log
     = (Err ("failed to setup auth: " +:+ body),
        log ++ [loginRequest opts u]))
  /\ (forall (opts : Options) (log : list http.Request) (err : error),
        fst (New opts log) = Err err ->
        err = "cannot specify JWT as well as username/password"
        \/ exists cause, err = "failed to setup auth: " +:+ cause).
Proof.
  split.
  - intros opts u log status body Hcred Hjwt Hu Hresp Hstatus.
    rewrite New_eq. unfold hasCredentials in Hcred.
    rewrite decide_False by (intros [Hn Hp]; destruct Hcred; done).
    rewrite decide_True by done.
    rewrite basicAuthSetup_eq, Hu, Hresp. cbn.
    apply Z.eqb_neq in Hstatus. unfold http.StatusOK. by rewrite Hstatus.
  - intros opts log err. rewrite New_eq.
    destruct (decide _); [done|].
    destruct (decide _); [|intros [= <-]; by left].
    destruct (basicAuthSetup _ opts log) as [[token|cause] log2]; [done|].
    intros [= <-]. right. by exists cause.
Qed.

(** X15: the token that a login returns is the token of every later
    request: after a successful login the requests of [Tags] carry
    [Authorization: JWT <token>], and no header at all when the registry
    returned an empty token. *)
Theorem login_token_reaches_requests `{Runtime} (opts : Options)
    (u : url.URL) (log : list http.Request) (body : string)
    (response : AuthResponse) :
  hasCredentials opts ->
  JWT opts = EmptyString ->
  url_Parse (LoginURL opts) = Ok u ->
  RoundTrip log (loginRequest opts u)
  = Ok {| http.StatusCode := 200; http.Body := Ok body |} ->
  json_Unmarshal_AuthResponse body = Ok response ->
  exists c,
    New opts log = (Ok c, log ++ [loginRequest opts u])
    /\ JWT (options c) = Token response
    /\ forall fuel imageURL log',
         exists sent,
           snd (Tags fuel c imageURL log') = log' ++ sent
           /\ Forall (fun req =>
                        http.Hdr req
                        = if decide (Token response = EmptyString) then ∅
                          else {[ "Authorization"
                                  := ["JWT " +:+ Token response] ]})
                     sent.
Proof.
  intros Hcred Hjwt Hu Hresp Hbody. eexists. split; [|split].
  - rewrite New_eq. unfold hasCredentials in Hcred.
    rewrite decide_False by (intros [Hn Hp]; destruct Hcred; done).
    rewrite decide_True by done.
    rewrite basicAuthSetup_eq, Hu, Hresp. cbn. rewrite Hbody. reflexivity.
  - done.
  - intros fuel imageURL log'. unfold Tags.
    match goal with
    | |- context [pagesLoop fuel ?c ?url [] log'] =>
        destruct (pagesLoop_requests c fuel url [] log')
          as (sent & Hlog & Hsent)
    end.
    exists sent. split; [done|].
    eapply Forall_impl; [exact Hsent|]. by intros req [u' ->].
Qed.

(** ** The login body *)

Lemma append_quote_inj (q : ascii) (a b rest1 rest2 : string) :
  gostrings.hasByte q a = false ->
  gostrings.hasByte q b = false ->
  a +:+ String q rest1 = b +:+ String q rest2 ->
  a = b /\ rest1 = rest2.
Proof.
  revert b; induction a as [|x a IH]; intros [|y b]; cbn; intros Ha Hb Heq.
  - by injection Heq as ->.
  - injection Heq as <- _. by rewrite Ascii.eqb_refl in Hb.
  - injection Heq as -> _. by rewrite Ascii.eqb_refl in Ha.
  - injection Heq as -> Heq.
    apply orb_false_iff in Ha as [_ Ha]. apply orb_false_iff in Hb as [_ Hb].
    destruct (IH b Ha Hb Heq) as [-> ->]. done.
Qed.

(** X16: for credentials without a double quote the login body determines
    the username and the password: two configurations with the same body
    have the same credentials. *)
Theorem loginBody_injective_without_quotes (opts1 opts2 : Options) :
  gostrings.hasByte "034" (Username opts1) = false ->
  gostrings.hasByte "034" (Password opts1) = false ->
  gostrings.hasByte "034" (Username opts2) = false ->
  gostrings.hasByte "034" (Password opts2) = false ->
  loginBody opts1 = loginBody opts2 ->
  Username opts1 = Username opts2 /\ Password opts1 = Password opts2.
Proof.
  intros Hu1 Hp1 Hu2 Hp2. unfold loginBody, dq. cbn. intros [= Heq].
  apply append_quote_inj in Heq as [Hu Heq]; [|done..].
  split; [done|]. cbn in Heq. injection Heq as Heq.
  by apply append_quote_inj in Heq as [Hp _].
Qed.

(** ** The failing registry double at work *)

Section OutageFacts.

Import Outage.

#[local] Existing Instance runtime.

Ltac delivered status :=
  exists status; unfold RoundTrip, runtime, roundTrip;
  match goal with Hurl : http.URL _ = _ |- _ => by rewrite Hurl end.

Lemma release_parses (page : TagResponse) (name digest : string) :
  Results page = [release name digest] ->
  Forall (fun page => timestampsParse (Results page)) [page].
Proof.
  intros Hpage. repeat constructor. rewrite Hpage.
  repeat constructor. intros _. by eexists.
Qed.

Lemma app_refused (log : list http.Request) :
  leads (tagsURL "app") [appPage] log (refused "context deadline exceeded").
Proof.
  split; [done|]. eexists _, (Fixture.renderPage appPage).
  split; [reflexivity|]. split; [reflexivity|]. intros req _ Hurl.
  split; [delivered 200%Z|].
  split; [done|]. eexists. split; [reflexivity|]. intros req' _ Hurl'.
  unfold RoundTrip, runtime, roundTrip. by rewrite Hurl'.
Qed.

Lemma web_garbled (log : list http.Request) :
  leads (tagsURL "web") [webPage] log (garbled badGateway).
Proof.
  split; [done|]. eexists _, (Fixture.renderPage webPage).
  split; [reflexivity|]. split; [reflexivity|]. intros req _ Hurl.
  split; [delivered 200%Z|].
  split; [done|]. split; [exact I|]. eexists. split; [reflexivity|].
  intros req' _ Hurl'. delivered 502%Z.
Qed.

Lemma db_dangling (log : list http.Request) :
  leads (tagsURL "db") [dbPage] log
        (dangling ("parse " +:+ Fixture.quoted "::next"
                   +:+ ": unsupported URL")).
Proof.
  split; [done|]. eexists _, (Fixture.renderPage dbPage).
  split; [reflexivity|]. split; [reflexivity|]. intros req _ Hurl.
  split; [delivered 200%Z|]. by split.
Qed.

End OutageFacts.

(** ** The further statements at work on the registry doubles *)

Lemma repoPath_spellings_agree_witness :
  IsClient "nginx" = false
  /\ repoPath "docker.io/nginx" = repoPath "nginx"
  /\ repoPath "registry.hub.docker.com/nginx" = repoPath "nginx".
Proof.
  split; [reflexivity|].
  pose proof (repoPath_spellings_agree "nginx" eq_refl) as (H1 & H2 & _).
  by split.
Defined.

Lemma resultsLoop_first_failure_witness :
  resultsLoop (H:=Fixture.runtime) (Results Fixture.brokenPage) []
  = Err ("failed to parse image timestamp: "
         +:+ ("parsing time " +:+ Fixture.quoted "yesterday")).
Proof.
  refine (resultsLoop_first_failure (H:=Fixture.runtime)
            [ {| Name := "v1"; Timestamp := "2023-01-01T00:00:00Z";
                 Images := [ {| Digest := "sha256:ddd"; OS := "linux";
                                Architecture := "amd64" |} ] |} ]
            [] _ _ [] _ _ _).
  - repeat constructor. intros _. by eexists.
  - done.
  - reflexivity.
Defined.

Lemma Tags_asks_before_answering_witness :
  exists req sent,
    snd (Tags (H:=Fixture.runtime) 2 Fixture.anonymous "nginx" [])
    = [] ++ req :: sent
    /\ requestFor (H:=Fixture.runtime) Fixture.anonymous
         ("https://registry.hub.docker.com/v2/repositories/"
          +:+ repoPath "nginx" +:+ "/tags") req.
Proof.
  eapply (Tags_asks_before_answering (H:=Fixture.runtime)).
  vm_compute. reflexivity.
Defined.

Lemma Tags_transport_failure_witness :
  exists sent,
    Tags (H:=Outage.runtime) 2 Fixture.anonymous "docker.io/acme/app" []
    = (Some (Err ("failed to get docker image: "
                  +:+ "context deadline exceeded")), [] ++ sent)
    /\ length sent = 2.
Proof.
  apply (Tags_transport_failure (H:=Outage.runtime) Fixture.anonymous
           "docker.io/acme/app" [Outage.appPage] [] 2).
  - apply (app_refused []).
  - by apply (release_parses _ "v1" "sha256:a11").
  - cbn. lia.
Defined.

Lemma Tags_undecodable_page_witness :
  exists sent,
    Tags (H:=Outage.runtime) 2 Fixture.anonymous "acme/web" []
    = (Some (Err ("unexpected image tags response: "
                  +:+ Outage.badGateway)), [] ++ sent)
    /\ length sent = 2.
Proof.
  apply (Tags_undecodable_page (H:=Outage.runtime) Fixture.anonymous
           "acme/web" [Outage.webPage] [] 2).
  - apply (web_garbled []).
  - by apply (release_parses _ "v1" "sha256:b22").
  - cbn. lia.
Defined.

Lemma Tags_dangling_next_witness :
  exists sent,
    Tags (H:=Outage.runtime) 2 Fixture.anonymous "acme/db" []
    = (Some (Err ("parse " +:+ Fixture.quoted "::next"
                  +:+ ": unsupported URL")), [] ++ sent)
    /\ length sent = 1.
Proof.
  apply (Tags_dangling_next (H:=Outage.runtime) Fixture.anonymous
           "acme/db" [Outage.dbPage] [] 2).
  - apply (db_dangling []).
  - by apply (release_parses _ "v1" "sha256:c33").
  - cbn. lia.
Defined.

Lemma Tags_self_link_never_returns_witness :
  exists sent,
    Tags (H:=Outage.runtime) 40 Fixture.anonymous "acme/loop" []
    = (None, [] ++ sent)
    /\ length sent = 40.
Proof.
  refine (Tags_self_link_never_returns (H:=Outage.runtime) Fixture.anonymous
            "acme/loop" _ (Fixture.renderPage Outage.loopPage)
            Outage.loopPage _ _ _ _ _ 40 []).
  - reflexivity.
  - reflexivity.
  - reflexivity.
  - repeat constructor. intros _. by eexists.
  - intros log req _ Hurl. exists 200%Z.
    unfold RoundTrip, Outage.runtime, Outage.roundTrip. by rewrite Hurl.
Defined.

Lemma New_client_origin_witness :
  exists c log',
    New (H:=Fixture.runtime)
        {| LoginURL := Fixture.loginURL; Username := "alice";
           Password := "secret"; JWT := EmptyString |} []
    = (Ok c, log')
    /\ Username (options c) = "alice"
    /\ Password (options c) = "secret"
    /\ http.Timeout (httpClient c) = 5000000000%Z.
Proof.
  eexists _, _. split; [exact New_logs_in|].
  pose proof (New_client_origin (H:=Fixture.runtime) _ _ _ _ New_logs_in)
    as (_ & Huser & Hpass & Htimeout & _).
  split; [exact Huser|]. split; [exact Hpass | exact Htimeout].
Defined.

Lemma New_login_refused_error_witness :
  New (H:=Fixture.runtime)
      {| LoginURL := Fixture.loginURL; Username := "mallory";
         Password := "guess"; JWT := EmptyString |} []
  = (Err ("failed to setup auth: "
          +:+ "incorrect authentication credentials"),
     [] ++ [loginRequest
              {| LoginURL := Fixture.loginURL; Username := "mallory";
                 Password := "guess"; JWT := EmptyString |}
              {| url.Scheme := "https"; url.Host := EmptyString;
                 url.Path := "hub.docker.com/v2/users/login/";
                 url.RawQuery := EmptyString |}]).
Proof.
  refine (proj1 (New_login_refused_error (H:=Fixture.runtime)) _ _ [] 401%Z
                "incorrect authentication credentials" _ _ _ _ _).
  - left. cbn. discriminate.
  - reflexivity.
  - reflexivity.
  - reflexivity.
  - done.
Defined.

Lemma login_token_reaches_requests_witness :
  exists c,
    New (H:=Fixture.runtime)
        {| LoginURL := Fixture.loginURL; Username := "alice";
           Password := "secret"; JWT := EmptyString |} []
    = (Ok c,
       [] ++ [loginRequest
                {| LoginURL := Fixture.loginURL; Username := "alice";
                   Password := "secret"; JWT := EmptyString |}
                {| url.Scheme := "https"; url.Host := EmptyString;
                   url.Path := "hub.docker.com/v2/users/login/";
                   url.RawQuery := EmptyString |}])
    /\ JWT (options c) = "abc".
Proof.
  destruct (login_token_reaches_requests (H:=Fixture.runtime)
              {| LoginURL := Fixture.loginURL; Username := "alice";
                 Password := "secret"; JWT := EmptyString |}
              {| url.Scheme := "https"; url.Host := EmptyString;
                 url.Path := "hub.docker.com/v2/users/login/";
                 url.RawQuery := EmptyString |}
              [] Fixture.tokenBody {| Token := "abc" |})
    as (c & Hnew & Hjwt & _).
  - left. cbn. discriminate.
  - reflexivity.
  - reflexivity.
  - reflexivity.
  - reflexivity.
  - by exists c.
Defined.

Lemma loginBody_injective_without_quotes_witness :
  Username {| LoginURL := Fixture.loginURL; Username := "alice";
              Password := "secret"; JWT := EmptyString |}
  = Username {| LoginURL := EmptyString; Username := "alice";
                Password := "secret"; JWT := "abc" |}
  /\ Password {| LoginURL := Fixture.loginURL; Username := "alice";
                 Password := "secret"; JWT := EmptyString |}
     = Password {| LoginURL := EmptyString; Username := "alice";
                   Password := "secret"; JWT := "abc" |}.
Proof.
  apply loginBody_injective_without_quotes; reflexivity.
Defined.
